(** * Earth Wallpaper: the staleness-gated fetch-and-compose pipeline

    A shallow embedding of the later of the two variants (parallel tile
    downloads and the additive black border) of the program's [main]
    package: [downloadImage],
    [processWallpaper], [setWallpaper] and the [doFetch] closure of
    [startFetcher], together with the parts of Go's [image], [image/draw],
    [time] and [fmt] packages that these functions call.

    Go's [int] is modelled by [Z]: every integer the program computes is a
    pixel coordinate below 2560 or a calendar field, far from the 64-bit
    range. *)

From Stdlib Require Import ZArith List Bool String Ascii DecimalString DecimalZ DecimalPos.
From Stdlib Require Import Lia Permutation.
Import ListNotations.

Local Open Scope Z_scope.

(* ===================================================================== *)
(** ** Package [image/color] *)

Module color.

(** [color.RGBA]: four 8-bit channels, alpha-premultiplied. *)
Record RGBA : Set := mkRGBA { R : Z; G : Z; B : Z; A : Z }.

(** The zero value [color.RGBA{}]: what a fresh [image.RGBA] holds and
    what the [At] method of an [image.RGBA] answers outside the image. *)
Definition Zero : RGBA := mkRGBA 0 0 0 0.

(** [color.Black] ([Gray16{0}]) once converted to the RGBA model. *)
Definition Black : RGBA := mkRGBA 0 0 0 255.

End color.

(* ===================================================================== *)
(** ** Package [image]: points, rectangles, images *)

Module image.

Record Point : Set := Pt { X : Z; Y : Z }.

Record Rectangle : Set := mkRectangle { Min : Point; Max : Point }.

(** [image.Rect(x0, y0, x1, y1)]: the rectangle with the coordinates
    put in order. *)
Definition Rect (x0 y0 x1 y1 : Z) : Rectangle :=
  let '(x0, x1) := if x0 >? x1 then (x1, x0) else (x0, x1) in
  let '(y0, y1) := if y0 >? y1 then (y1, y0) else (y0, y1) in
  mkRectangle (Pt x0 y0) (Pt x1 y1).

(** The zero rectangle [image.ZR]. *)
Definition ZR : Rectangle := mkRectangle (Pt 0 0) (Pt 0 0).

Definition Dx (r : Rectangle) : Z := X (Max r) - X (Min r).
Definition Dy (r : Rectangle) : Z := Y (Max r) - Y (Min r).

Definition Empty (r : Rectangle) : bool :=
  (X (Min r) >=? X (Max r)) || (Y (Min r) >=? Y (Max r)).

(** [p.In(r)] *)
Definition In (p : Point) (r : Rectangle) : bool :=
  (X (Min r) <=? X p) && (X p <? X (Max r)) &&
  (Y (Min r) <=? Y p) && (Y p <? Y (Max r)).

Definition PAdd (p q : Point) : Point := Pt (X p + X q) (Y p + Y q).
Definition PSub (p q : Point) : Point := Pt (X p - X q) (Y p - Y q).

(** [r.Add(p)]: [r] translated by [p]. *)
Definition Add (r : Rectangle) (p : Point) : Rectangle :=
  mkRectangle (PAdd (Min r) p) (PAdd (Max r) p).

(** [r.Intersect(s)]: the largest rectangle inside both, [ZR] when they
    do not overlap. *)
Definition Intersect (r s : Rectangle) : Rectangle :=
  let x0 := if X (Min r) <? X (Min s) then X (Min s) else X (Min r) in
  let y0 := if Y (Min r) <? Y (Min s) then Y (Min s) else Y (Min r) in
  let x1 := if X (Max r) >? X (Max s) then X (Max s) else X (Max r) in
  let y1 := if Y (Max r) >? Y (Max s) then Y (Max s) else Y (Max r) in
  let r' := mkRectangle (Pt x0 y0) (Pt x1 y1) in
  if Empty r' then ZR else r'.

(** The interface [image.Image], as the program observes it: the bounds
    and the colour at each point, the colour already converted to the
    RGBA model into which every drawing of the program goes. *)
Record Image : Type := mkImage { Bounds : Rectangle; At : Z -> Z -> color.RGBA }.

(** [image.RGBA] (used by pointer): the pixel store is indexed by the point instead of by
    the byte offset [(y-Rect.Min.Y)*Stride + (x-Rect.Min.X)*4]. *)
Record RGBA : Type := mkRGBA { Pix : Z -> Z -> color.RGBA; Rect_ : Rectangle }.

(** [image.NewRGBA(r)]: every pixel is the zero colour. *)
Definition NewRGBA (r : Rectangle) : RGBA := mkRGBA (fun _ _ => color.Zero) r.

(** [p.At(x, y)] for [p] an [image.RGBA] *)
Definition RGBAAt (p : RGBA) (x y : Z) : color.RGBA :=
  if In (Pt x y) (Rect_ p) then Pix p x y else color.Zero.

(** An [image.RGBA] seen through the [image.Image] interface. *)
Definition ofRGBA (p : RGBA) : Image := mkImage (Rect_ p) (RGBAAt p).

(** [image.Uniform]: one colour on an (in effect) unbounded rectangle. *)
Definition Uniform (c : color.RGBA) : Image :=
  mkImage (mkRectangle (Pt (-1000000000) (-1000000000))
                       (Pt 1000000000 1000000000))
          (fun _ _ => c).

End image.

Coercion image.ofRGBA : image.RGBA >-> image.Image.

(* ===================================================================== *)
(** ** Package [image/draw] *)

Module draw.

Import image.

(** [clip]: the destination rectangle [r] restricted to the destination's
    bounds and to the source's bounds (translated so that [sp] meets
    [r.Min]); the source point moves along with [r.Min]. *)
Definition clip (dst : RGBA) (r : Rectangle) (src : Image) (sp : Point)
  : Rectangle * Point :=
  let orig := Min r in
  let r1 := Intersect r (Rect_ dst) in
  let r2 := Intersect r1 (Add (Bounds src) (PSub orig sp)) in
  (r2, PAdd sp (PSub (Min r2) orig)).

(** The source point that [Draw] copies to the destination point
    [(px, py)]. *)
Definition srcPoint (r : Rectangle) (sp : Point) (px py : Z) : Point :=
  Pt (X sp + (px - X (Min r))) (Y sp + (py - Y (Min r))).

(** Where [Draw] writes: inside [r], inside the destination, and where
    the source has a pixel to give. *)
Definition written (dst : RGBA) (r : Rectangle) (src : Image) (sp : Point)
           (px py : Z) : bool :=
  In (Pt px py) r && In (Pt px py) (Rect_ dst) && In (srcPoint r sp px py) (Bounds src).

(** [draw.Draw(dst, r, src, sp, draw.Src)], the only operator the program
    uses: after clipping, every pixel of [r] is replaced by the source
    pixel that lies at the same distance from [sp] as it does from
    [r.Min]. *)
Definition Draw (dst : RGBA) (r : Rectangle) (src : Image) (sp : Point) : RGBA :=
  let '(r', sp') := clip dst r src sp in
  if Empty r' then dst
  else mkRGBA (fun x y =>
                 if In (Pt x y) r'
                 then At src (X sp' + (x - X (Min r'))) (Y sp' + (y - Y (Min r')))
                 else Pix dst x y)
              (Rect_ dst).

End draw.

(* ===================================================================== *)
(** ** Package [fmt]: the two integer verbs the program uses *)

Module fmt.

Local Open Scope string_scope.

(** [%d] *)
Definition d (n : Z) : string := NilZero.string_of_int (Z.to_int n).

Fixpoint zeros (k : nat) : string :=
  match k with
  | O => ""
  | S k' => "0" ++ zeros k'
  end.

(** [%0wd]: zero padding on the left up to width [w], the sign (if any)
    first and counted in the width. *)
Definition d0 (w : nat) (n : Z) : string :=
  let digits := d (Z.abs n) in
  let sign := if (n <? 0)%Z then "-" else "" in
  sign ++ zeros (w - String.length sign - String.length digits)%nat ++ digits.

End fmt.

(* ===================================================================== *)
(** ** Package [time] *)

Module time.

(** A [time.Time] as the program meets it (UTC, no monotonic reading):
    the instant, counted in nanoseconds from the zero Time, January 1 of
    year 1, 00:00:00 UTC. *)
Definition Time : Set := Z.

(** The zero value [time.Time{}]. *)
Definition Zero : Time := 0.

(** [t.IsZero()] *)
Definition IsZero (t : Time) : bool := t =? 0.

(** [t.After(u)] *)
Definition After (t u : Time) : bool := t >? u.

Definition nsPerSecond : Z := 1000000000.
Definition secondsPerDay : Z := 86400.

(** Whole seconds and whole days elapsed since the zero Time. *)
Definition absSeconds (t : Time) : Z := t / nsPerSecond.
Definition absDays (t : Time) : Z := absSeconds t / secondsPerDay.

(** The proleptic Gregorian date of the day number [days] (day 0 is
    January 1 of year 1), computed over years that start in March. *)
Definition civil (days : Z) : Z * Z * Z :=
  let z := days + 306 in
  let era := z / 146097 in
  let doe := z - era * 146097 in
  let yoe := (doe - doe / 1460 + doe / 36524 - doe / 146096) / 365 in
  let doy := doe - (365 * yoe + yoe / 4 - yoe / 100) in
  let mp := (5 * doy + 2) / 153 in
  let dd := doy - (153 * mp + 2) / 5 + 1 in
  let m := if mp <? 10 then mp + 3 else mp - 9 in
  let y := yoe + era * 400 + (if m <=? 2 then 1 else 0) in
  (y, m, dd).

Definition Year (t : Time) : Z := fst (fst (civil (absDays t))).
Definition Month (t : Time) : Z := snd (fst (civil (absDays t))).
Definition Day (t : Time) : Z := snd (civil (absDays t)).
Definition Hour (t : Time) : Z := (absSeconds t mod secondsPerDay) / 3600.
Definition Minute (t : Time) : Z := (absSeconds t mod 3600) / 60.
Definition Second (t : Time) : Z := absSeconds t mod 60.

(** Day number of a calendar date, the inverse of [civil]. *)
Definition daysFromCivil (y m dd : Z) : Z :=
  let y' := if m <=? 2 then y - 1 else y in
  let era := y' / 400 in
  let yoe := y' - era * 400 in
  let mp := if m >? 2 then m - 3 else m + 9 in
  let doy := (153 * mp + 2) / 5 + dd - 1 in
  let doe := yoe * 365 + yoe / 4 - yoe / 100 + doy in
  era * 146097 + doe - 306.

(** [time.Date(year, month, day, hour, min, sec, nsec, time.UTC)] *)
Definition Date (y m dd h mi s ns : Z) : Time :=
  ((daysFromCivil y m dd * secondsPerDay + h * 3600 + mi * 60 + s) * nsPerSecond) + ns.

Definition isLeap (y : Z) : bool :=
  (y mod 4 =? 0) && (negb (y mod 100 =? 0) || (y mod 400 =? 0)).

Definition daysIn (m y : Z) : Z :=
  if m =? 2 then (if isLeap y then 29 else 28)
  else if (m =? 4) || (m =? 6) || (m =? 9) || (m =? 11) then 30 else 31.

(** *** [time.Parse("2006-01-02 15:04:05", value)] *)

Definition isDigit (c : ascii) : bool :=
  let n := Z.of_nat (nat_of_ascii c) in (48 <=? n) && (n <=? 57).

Definition digit (c : ascii) : Z := Z.of_nat (nat_of_ascii c) - 48.

(** [getnum(s, fixed)]: one or two leading digits, two when [fixed]. *)
Definition getnum (s : string) (fixed : bool) : option (Z * string) :=
  match s with
  | String a rest =>
      if isDigit a then
        match rest with
        | String b rest' =>
            if isDigit b then Some (digit a * 10 + digit b, rest')
            else if fixed then None else Some (digit a, rest)
        | EmptyString => if fixed then None else Some (digit a, rest)
        end
      else None
  | EmptyString => None
  end.

(** [skip(value, prefix)] for a prefix of one character other than the
    space. *)
Definition skipChar (c : ascii) (s : string) : option string :=
  match s with
  | String a rest => if Ascii.eqb a c then Some rest else None
  | EmptyString => None
  end.

Fixpoint cutspace (s : string) : string :=
  match s with
  | String a rest => if Ascii.eqb a " " then cutspace rest else s
  | EmptyString => s
  end.

(** [skip(value, " ")]: a run of spaces stands for the one of the
    layout. *)
Definition skipSpace (s : string) : option string :=
  match s with
  | String a _ => if Ascii.eqb a " " then Some (cutspace s) else None
  | EmptyString => Some s
  end.

(** The four digits of the year ([stdLongYear]). *)
Definition getyear (s : string) : option (Z * string) :=
  match s with
  | String a (String b (String c (String e rest))) =>
      if isDigit a && isDigit b && isDigit c && isDigit e
      then Some (((digit a * 10 + digit b) * 10 + digit c) * 10 + digit e, rest)
      else None
  | _ => None
  end.

(** The digits that follow a decimal mark, at most nine of them kept:
    their value, their number, and the text after all of them. *)
Fixpoint fracDigits (s : string) (kept : nat) (acc : Z) : Z * nat * string :=
  match s with
  | String a rest =>
      if isDigit a then
        if (kept <? 9)%nat then fracDigits rest (S kept) (acc * 10 + digit a)
        else fracDigits rest kept acc
      else (acc, kept, s)
  | EmptyString => (acc, kept, s)
  end.

(** A fractional second in the text where the layout has none: it is
    read as nanoseconds ([parseNanoseconds]). *)
Definition getfrac (s : string) : Z * string :=
  match s with
  | String m (String a rest) =>
      if (Ascii.eqb m "." || Ascii.eqb m ",") && isDigit a then
        let '(v, kept, rest') := fracDigits (String a rest) 0 0 in
        (v * 10 ^ (9 - Z.of_nat kept), rest')
      else (0, s)
  | _ => (0, s)
  end.

Definition bindO {A B : Type} (o : option A) (k : A -> option B) : option B :=
  match o with
  | Some a => k a
  | None => None
  end.

Notation "' p <- o ;; k" := (bindO o (fun p => k))
  (at level 61, p pattern, o at next level, right associativity).
Notation "x <- o ;; k" := (bindO o (fun x => k))
  (at level 61, o at next level, right associativity).

Definition guard (b : bool) : option unit := if b then Some tt else None.

Definition Parse (value : string) : option Time :=
  '(year, v) <- getyear value ;;
  v <- skipChar "-" v ;;
  '(month, v) <- getnum v true ;;
  _ <- guard ((0 <? month) && (month <=? 12)) ;;
  v <- skipChar "-" v ;;
  '(day, v) <- getnum v true ;;
  v <- skipSpace v ;;
  '(hour, v) <- getnum v false ;;
  _ <- guard (hour <? 24) ;;
  v <- skipChar ":" v ;;
  '(min, v) <- getnum v true ;;
  _ <- guard (min <? 60) ;;
  v <- skipChar ":" v ;;
  '(sec, v) <- getnum v true ;;
  _ <- guard (sec <? 60) ;;
  let '(nsec, v) := getfrac v in
  _ <- guard (String.eqb v "") ;;
  _ <- guard ((1 <=? day) && (day <=? daysIn month year)) ;;
  Some (Date year month day hour min sec nsec).

End time.

(* ===================================================================== *)
(** ** The outside world of one tick

    What the network, the decoders, the file system and the desktop answer
    during one run of [doFetch]. Go's [error] values are kept as their
    messages. Log lines are not modelled. *)

Definition error : Set := string.

(** An [http.Response]: the status, and what reading [Body] to its end
    gives ([io.Copy] into a buffer). *)
Record Response : Set := mkResponse { StatusCode : Z; Body : string + error }.

(** [LatestImageInfo], the decoded [latest.json]. *)
Record LatestImageInfo : Set := mkInfo { Date : string; File : string }.

Record World : Type := mkWorld {
  http_Get : string -> Response + error;
  json_Decode : string + error -> LatestImageInfo + error;
  png_Decode : string -> image.Image + error;
  os_TempDir : string;
  os_Create : string -> option error;
  png_Encode : string -> image.RGBA -> option error;
  wallpaper_SetWallpaper : string -> option error
}.

(* ===================================================================== *)
(** ** Package-level declarations of the [main] package *)

Definition resolution : Z := 4.
Definition tileSize : Z := 550.
(** pixels of black padding on each side *)
Definition border : Z := 180.

(** [tileResult] holds the result of a downloaded tile image. *)
Record tileResult : Type := mkTile { x : Z; y : Z; img : image.Image }.

(** The package-level variables [latestImageDate] and [latestImageTime]
    (guarded by [latestImageMu]). *)
Record Globals : Set := mkGlobals {
  latestImageDate : string;
  latestImageTime : time.Time
}.

(** The state of a freshly started process. *)
Definition initGlobals : Globals := mkGlobals "" time.Zero.

(* ===================================================================== *)
(** ** [downloadImage] *)

Local Open Scope string_scope.

(** The six date and time fields as they enter the URL. *)
Definition urlFields (t : time.Time) : string * string * string * string * string * string :=
  if time.IsZero t then
    (* fallback *)
    ("2026", "01", "10", "02", "00", "00")
  else
    (fmt.d0 4 (time.Year t), fmt.d0 2 (time.Month t), fmt.d0 2 (time.Day t),
     fmt.d0 2 (time.Hour t), fmt.d0 2 (time.Minute t), fmt.d0 2 (time.Second t)).

(** The [url] variable of [downloadImage]. *)
Definition tileURL (resolution i j : Z) (t : time.Time) : string :=
  let '(year, month, day, hour, minute, second) := urlFields t in
  let timeStr := hour ++ minute ++ second in
  "https://anzu.shinshu-u.ac.jp/himawari/img/D531106/" ++ fmt.d resolution ++ "d/550/"
    ++ year ++ "/" ++ month ++ "/" ++ day ++ "/" ++ timeStr
    ++ "_" ++ fmt.d i ++ "_" ++ fmt.d j ++ ".png".

(** The blank placeholder tile returned on every failure. *)
Definition blankTile : image.Image :=
  image.NewRGBA (image.Rect 0 0 tileSize tileSize).

Definition downloadImage (w : World) (resolution i j : Z) (t : time.Time) : image.Image :=
  let url := tileURL resolution i j t in
  match http_Get w url with
  | inr _ => blankTile
  | inl resp =>
      if negb (StatusCode resp =? 200)%Z then blankTile
      else
        match Body resp with
        | inr _ => blankTile
        | inl buf =>
            match png_Decode w buf with
            | inr _ => blankTile
            | inl img => img
            end
        end
  end.

(** [latestImage] fetches the latest image information. *)
Definition latestImage (w : World) : string + error :=
  match http_Get w "https://jh170034-1.kudpc.kyoto-u.ac.jp/himawari/img/D531106/latest.json" with
  | inr err => inr err
  | inl resp =>
      match json_Decode w (Body resp) with
      | inr err => inr err
      | inl data => inl (Date data)
      end
  end.

Local Close Scope string_scope.

(* ===================================================================== *)
(** ** [processWallpaper]: grid assembly *)

(** The values taken by [i] and by [j]: [0, 1, ..., n-1]. *)
Definition upto (n : Z) : list Z := map Z.of_nat (seq 0 (Z.to_nat n)).

(** The coordinates in the order in which the two nested loops reach
    them. *)
Definition gridCoords (gridSize : Z) : list (Z * Z) :=
  flat_map (fun i => map (fun j => (i, j)) (upto gridSize)) (upto gridSize).

(** The [dest] rectangle of a result. *)
Definition cell (cx cy : Z) : image.Rectangle :=
  image.Rect (cx * tileSize) (cy * tileSize) ((cx + 1) * tileSize) ((cy + 1) * tileSize).

(** One iteration of [for res := range results]. *)
Definition drawTile (canvas : image.RGBA) (res : tileResult) : image.RGBA :=
  let dest := cell (x res) (y res) in
  draw.Draw canvas dest (img res) (image.Pt 0 0).

(** The drawing loop over the results in the order in which the channel
    delivers them. *)
Definition drawLoop (canvas : image.RGBA) (arrived : list tileResult) : image.RGBA :=
  fold_left drawTile arrived canvas.

(** The coordinate of a result. *)
Definition coordOf (r : tileResult) : Z * Z := (x r, y r).

(** Where a result is drawn: in its cell, on the canvas, and as far as
    its image reaches from the cell's corner. *)
Definition drawn (c : image.RGBA) (res : tileResult) (px py : Z) : bool :=
  image.In (image.Pt px py) (cell (x res) (y res)) && image.In (image.Pt px py) (image.Rect_ c)
  && image.In (image.Pt (px - x res * tileSize) (py - y res * tileSize))
              (image.Bounds (img res)).

(** The blank canvas. *)
Definition newCanvas (gridSize : Z) : image.RGBA :=
  image.NewRGBA (image.Rect 0 0 (gridSize * tileSize) (gridSize * tileSize)).

Definition coord_eqb (c d : Z * Z) : bool := (fst c =? fst d) && (snd c =? snd d).

Definition coord_dec (c e : Z * Z) : {c = e} + {c <> e}.
Proof. decide equality; apply Z.eq_dec. Defined.

(** The first element of [l] that satisfies [p], taken out of [l]. *)
Fixpoint extract {A : Type} (p : A -> bool) (l : list A) : option (A * list A) :=
  match l with
  | [] => None
  | a :: l' =>
      if p a then Some (a, l')
      else match extract p l' with
           | Some (b, l'') => Some (b, a :: l'')
           | None => None
           end
  end.

(** *** The goroutines of one assembly

    The main goroutine launches one goroutine per coordinate, starts the
    goroutine that closes the channel once the wait group is back to zero,
    and then ranges over the channel. The scheduler picks, at each step,
    one of the actions below; an action that is not enabled (a blocked
    send, a [wg.Wait] that cannot return yet, an empty open channel) yields
    no state. *)

Inductive MainPC : Set :=
| Launching   (* in the two nested [for] loops *)
| Draining    (* in [for res := range results] *)
| Assembled.  (* past the range loop *)

Inductive CloserPC : Set :=
| NotStarted
| Waiting     (* in [wg.Wait()] *)
| Closed.     (* [close(results)] done *)

Inductive Action : Set :=
| Launch                    (* main: [wg.Add(1); go func(x, y int) {...}(i, j)] *)
| StartCloser               (* main: [go func() { wg.Wait(); close(results) }()] *)
| Download (c : Z * Z)      (* goroutine [c]: [img := downloadImage(resolution, x, y, t)] *)
| Send (c : Z * Z)          (* goroutine [c]: [results <- tileResult{...}] *)
| Done (c : Z * Z)          (* goroutine [c]: the deferred [wg.Done()] *)
| Close                     (* closer: [wg.Wait()] returns, [close(results)] *)
| Recv                      (* main: one iteration of the range loop *)
| Exit.                     (* main: the channel is closed and empty *)

Record Asm : Type := mkAsm {
  todo : list (Z * Z);        (* coordinates the loops have not reached *)
  started : list (Z * Z);     (* goroutines that have not downloaded yet *)
  fetched : list tileResult;  (* goroutines holding their image, before the send *)
  sent : list (Z * Z);        (* goroutines past the send, before [wg.Done()] *)
  wg : Z;                     (* the counter of the [sync.WaitGroup] *)
  results : list tileResult;  (* the channel's buffer, oldest first *)
  closer : CloserPC;
  pc : MainPC;
  canvas : image.RGBA;
  count : Z
}.

(** What is left to do in a state: every action uses up some of it. *)
Definition pcWeight (p : MainPC) : nat :=
  match p with Launching => 4 | Draining => 1 | Assembled => 0 end.

Definition closerWeight (c : CloserPC) : nat :=
  match c with NotStarted => 2 | Waiting => 1 | Closed => 0 end.

Definition remaining (s : Asm) : nat :=
  5 * List.length (todo s) + 4 * List.length (started s)
  + 3 * List.length (fetched s) + List.length (sent s)
  + List.length (results s) + pcWeight (pc s) + closerWeight (closer s).

Section Assembly.

(** [fetch x y] stands for [downloadImage(resolution, x, y, t)] at the
    timestamp and in the world of the cycle. *)
Variable fetch : Z -> Z -> image.Image.
Variable gridSize : Z.

Definition tileOf (c : Z * Z) : tileResult := mkTile (fst c) (snd c) (fetch (fst c) (snd c)).

Definition isAt (c : Z * Z) (r : tileResult) : bool := coord_eqb (x r, y r) c.

Definition initAsm : Asm :=
  mkAsm (gridCoords gridSize) [] [] [] 0 [] NotStarted Launching (newCanvas gridSize) 0.

Definition step (a : Action) (s : Asm) : option Asm :=
  match a with
  | Launch =>
      match pc s, todo s with
      | Launching, c :: rest =>
          Some (mkAsm rest (c :: started s) (fetched s) (sent s) (wg s + 1)
                      (results s) (closer s) (pc s) (canvas s) (count s))
      | _, _ => None
      end
  | StartCloser =>
      match pc s, todo s with
      | Launching, [] =>
          Some (mkAsm [] (started s) (fetched s) (sent s) (wg s)
                      (results s) Waiting Draining (canvas s) (count s))
      | _, _ => None
      end
  | Download c =>
      match extract (coord_eqb c) (started s) with
      | Some (_, rest) =>
          Some (mkAsm (todo s) rest (tileOf c :: fetched s) (sent s) (wg s)
                      (results s) (closer s) (pc s) (canvas s) (count s))
      | None => None
      end
  | Send c =>
      match extract (isAt c) (fetched s) with
      | Some (r, rest) =>
          (* the buffer holds [gridSize*gridSize] results *)
          if Z.of_nat (List.length (results s)) <? gridSize * gridSize then
            Some (mkAsm (todo s) (started s) rest (c :: sent s) (wg s)
                        (results s ++ [r]) (closer s) (pc s) (canvas s) (count s))
          else None
      | None => None
      end
  | Done c =>
      match extract (coord_eqb c) (sent s) with
      | Some (_, rest) =>
          Some (mkAsm (todo s) (started s) (fetched s) rest (wg s - 1)
                      (results s) (closer s) (pc s) (canvas s) (count s))
      | None => None
      end
  | Close =>
      match closer s with
      | Waiting =>
          if wg s =? 0 then
            Some (mkAsm (todo s) (started s) (fetched s) (sent s) (wg s)
                        (results s) Closed (pc s) (canvas s) (count s))
          else None
      | _ => None
      end
  | Recv =>
      match pc s, results s with
      | Draining, res :: rest =>
          Some (mkAsm (todo s) (started s) (fetched s) (sent s) (wg s)
                      rest (closer s) (pc s) (drawTile (canvas s) res) (count s + 1))
      | _, _ => None
      end
  | Exit =>
      match pc s, results s, closer s with
      | Draining, [], Closed =>
          Some (mkAsm (todo s) (started s) (fetched s) (sent s) (wg s)
                      [] (closer s) Assembled (canvas s) (count s))
      | _, _, _ => None
      end
  end.

(** A schedule run from a state. *)
Fixpoint run (sched : list Action) (s : Asm) : option Asm :=
  match sched with
  | [] => Some s
  | a :: sched' =>
      match step a s with
      | Some s' => run sched' s'
      | None => None
      end
  end.

(** The coordinates downloaded and the launches made along a schedule. *)
Definition downloads (sched : list Action) : list (Z * Z) :=
  flat_map (fun a => match a with Download c => [c] | _ => [] end) sched.

Definition launches (sched : list Action) : nat :=
  List.length (filter (fun a => match a with Launch => true | _ => false end) sched).

(** The schedule in which every goroutine runs to its end as soon as it
    is launched, and the main goroutine receives last. *)
Definition eager : list Action :=
  flat_map (fun c => [Launch; Download c; Send c; Done c]) (gridCoords gridSize)
    ++ [StartCloser; Close]
    ++ map (fun _ => Recv) (gridCoords gridSize)
    ++ [Exit].

(** The canvas when the results arrive in launch order. *)
Definition assemble : image.RGBA :=
  drawLoop (newCanvas gridSize) (map tileOf (gridCoords gridSize)).

(** A result is genuine when its image is the one fetched for its
    coordinate. *)
Definition genuine (r : tileResult) : Prop := r = tileOf (coordOf r).

(** What holds of every state that a schedule reaches, [arrived] being
    the results received so far. *)
Record Inv (sched : list Action) (s : Asm) (arrived : list tileResult) : Prop := mkInv {
  inv_coords :
    Permutation (todo s ++ started s ++ map coordOf (fetched s)
                   ++ map coordOf (results s) ++ map coordOf arrived)
                (gridCoords gridSize);
  inv_fetched : Forall genuine (fetched s);
  inv_results : Forall genuine (results s);
  inv_arrived : Forall genuine arrived;
  inv_wg :
    wg s = Z.of_nat (List.length (started s) + List.length (fetched s)
                     + List.length (sent s));
  inv_canvas : canvas s = drawLoop (newCanvas gridSize) arrived;
  inv_count : count s = Z.of_nat (List.length arrived);
  inv_downloads :
    Permutation (downloads sched)
                (map coordOf (fetched s) ++ map coordOf (results s) ++ map coordOf arrived);
  inv_launches :
    (launches sched + List.length (todo s) = List.length (gridCoords gridSize))%nat;
  inv_closer : pc s = Launching <-> closer s = NotStarted;
  inv_todo : pc s <> Launching -> todo s = [];
  inv_closed : closer s = Closed -> wg s = 0;
  inv_end : pc s = Assembled -> closer s = Closed /\ results s = []
}.

End Assembly.

(* ===================================================================== *)
(** ** [processWallpaper]: the border *)

(** Lines "add a uniform black border" of [processWallpaper], with the
    constant [border] as the parameter [b]. *)
Definition bordered (b : Z) (canvas : image.RGBA) : image.RGBA :=
  let srcW := image.Dx (image.Bounds canvas) in
  let srcH := image.Dy (image.Bounds canvas) in
  let dstW := srcW + b * 2 in
  let dstH := srcH + b * 2 in
  let bordered := image.NewRGBA (image.Rect 0 0 dstW dstH) in
  (* fill with black *)
  let bordered :=
    draw.Draw bordered (image.Bounds bordered) (image.Uniform color.Black) (image.Pt 0 0) in
  (* draw original canvas centered with the border offset *)
  draw.Draw bordered (image.Rect b b (b + srcW) (b + srcH)) canvas (image.Pt 0 0).

(* ===================================================================== *)
(** ** Effects

    What a run does besides computing: it reads and writes the two
    package-level variables, and it acts on the menu, the file system and
    the desktop. The variables are threaded as state; every action,
    the writes to the variables included, is appended to a trace. *)

Inductive Event : Type :=
| EvLatestImage                                   (* the request of [latestImage] *)
| EvLock                                          (* [latestImageMu.Lock()] *)
| EvUnlock                                        (* [latestImageMu.Unlock()] *)
| EvStoreTime (t : time.Time)                     (* [latestImageTime = t] *)
| EvStoreDate (s : string)                        (* [latestImageDate = s] *)
| EvSetTitle (s : string)                         (* [mLatestImageDate.SetTitle(s)] *)
| EvGo (i j : Z)                                  (* a tile goroutine launched *)
| EvCreate (path : string)                        (* [os.Create(path)] *)
| EvEncode (path : string) (final : image.RGBA)   (* [enc.Encode(outFile, final)] *)
| EvSetMode                                       (* [wallpaper.SetMode(modes.FILL_ORIGINAL)] *)
| EvSetWallpaper (path : string).                 (* [wallpaper.SetWallpaper(path)] *)

Definition M (A : Type) : Type := Globals -> A * Globals * list Event.

Definition ret {A : Type} (a : A) : M A := fun g => (a, g, []).

Definition bind {A B : Type} (m : M A) (k : A -> M B) : M B :=
  fun g =>
    let '(a, g1, tr1) := m g in
    let '(b, g2, tr2) := k a g1 in
    (b, g2, tr1 ++ tr2).

Declare Scope prog_scope.
Delimit Scope prog_scope with prog.
Notation "x <- m ;; k" := (bind m (fun x => k))
  (at level 61, m at next level, right associativity) : prog_scope.
Notation "m ;; k" := (bind m (fun _ => k))
  (at level 61, right associativity) : prog_scope.

Definition emit (e : Event) : M unit := fun g => (tt, g, [e]).

Definition readTime : M time.Time := fun g => (latestImageTime g, g, []).

Definition storeTime (t : time.Time) : M unit :=
  fun g => (tt, mkGlobals (latestImageDate g) t, [EvStoreTime t]).

Definition storeDate (s : string) : M unit :=
  fun g => (tt, mkGlobals s (latestImageTime g), [EvStoreDate s]).

Fixpoint forEach {A : Type} (l : list A) (f : A -> M unit) : M unit :=
  match l with
  | [] => ret tt
  | a :: l' => (f a ;; forEach l' f)%prog
  end.

(** The globals and the trace that a program leaves. *)
Definition globalsOf {A : Type} (r : A * Globals * list Event) : Globals := snd (fst r).
Definition traceOf {A : Type} (r : A * Globals * list Event) : list Event := snd r.
Definition valueOf {A : Type} (r : A * Globals * list Event) : A := fst (fst r).

(* ===================================================================== *)
(** ** [processWallpaper], [setWallpaper], [doFetch] *)

Local Open Scope string_scope.

(** [filepath.Join(dir, name)] for a non-empty [name]: empty elements are
    ignored (the lexical cleaning of the result is left out). *)
Definition filepath_Join (dir name : string) : string :=
  if String.eqb dir "" then name else dir ++ "/" ++ name.

Definition processWallpaper (w : World) (t : time.Time) : M string :=
  (let gridSize := resolution in
   (* one goroutine per coordinate; the canvas does not depend on the
      order in which their results arrive *)
   forEach (gridCoords gridSize) (fun c => emit (EvGo (fst c) (snd c))) ;;
   let canvas := assemble (fun x y => downloadImage w resolution x y t) gridSize in
   let final := bordered border canvas in
   (* save bordered image to system temp folder *)
   let tempDir := os_TempDir w in
   let fullImagePath := filepath_Join tempDir "earth_wallpaper_full.png" in
   emit (EvCreate fullImagePath) ;;
   match os_Create w fullImagePath with
   | Some _ => ret ""
   | None =>
       emit (EvEncode fullImagePath final) ;;
       match png_Encode w fullImagePath final with
       | Some _ => (* logged *) ret fullImagePath
       | None => ret fullImagePath
       end
   end)%prog.

Definition setWallpaper (w : World) (fullImagePath : string) : M unit :=
  (emit EvSetMode ;;
   emit (EvSetWallpaper fullImagePath) ;;
   match wallpaper_SetWallpaper w fullImagePath with
   | Some _ => (* logged *) ret tt
   | None => ret tt
   end)%prog.

(** The critical section of [doFetch]: from [latestImageMu.Lock()] to the
    [Unlock] of either branch. It answers whether [parsed] was taken. *)
Definition claim (parsed : time.Time) (raw : string) : M bool :=
  (emit EvLock ;;
   prev <- readTime ;;
   if time.IsZero prev || time.After parsed prev then
     storeTime parsed ;;
     storeDate raw ;;
     emit EvUnlock ;;
     ret true
   else
     (* not newer *)
     emit EvUnlock ;;
     ret false)%prog.

Definition doFetch (w : World) : M unit :=
  (emit EvLatestImage ;;
   match latestImage w with
   | inr _ => emit (EvSetTitle "Date: Error fetching")
   | inl raw =>
       (* Try to parse returned date *)
       match time.Parse raw with
       | None =>
           (* Keep raw string for display *)
           emit EvLock ;;
           storeDate raw ;;
           emit EvUnlock ;;
           emit (EvSetTitle ("Date: " ++ raw))
       | Some parsed =>
           (* Update stored time and process wallpaper only when newer *)
           newer <- claim parsed raw ;;
           emit (EvSetTitle ("Date: " ++ raw)) ;;
           if newer then
             (* New image: compose wallpaper and set it *)
             fullPath <- processWallpaper w parsed ;;
             if negb (String.eqb fullPath "") then setWallpaper w fullPath
             else ret tt
           else ret tt
       end
   end)%prog.

Local Close Scope string_scope.

(** The loop of [startFetcher]: one [doFetch] at once and one per tick,
    each in the world of its moment. *)
Fixpoint ticks (ws : list World) : M unit :=
  match ws with
  | [] => ret tt
  | w :: ws' => (doFetch w ;; ticks ws')%prog
  end.

(** Candidates presented to the critical section one after the other; the
    answers, in order. *)
Fixpoint claims (cands : list (time.Time * string)) : M (list bool) :=
  match cands with
  | [] => ret []
  | (parsed, raw) :: cands' =>
      (ok <- claim parsed raw ;;
       oks <- claims cands' ;;
       ret (ok :: oks))%prog
  end.

(** The candidates that were taken. *)
Fixpoint taken (cands : list (time.Time * string)) (oks : list bool) : list time.Time :=
  match cands, oks with
  | (parsed, _) :: cands', ok :: oks' =>
      if ok then parsed :: taken cands' oks' else taken cands' oks'
  | _, _ => []
  end.

(** The latest of a list of instants ([d] for the empty list). *)
Definition latest (d : time.Time) (l : list time.Time) : time.Time :=
  match l with
  | [] => d
  | t :: l' => fold_left Z.max l' t
  end.

(** The events of the pipeline: tile fetches, composition output,
    publication. *)
Definition isPipelineEvent (e : Event) : bool :=
  match e with
  | EvGo _ _ | EvCreate _ | EvEncode _ _ | EvSetMode | EvSetWallpaper _ => true
  | _ => false
  end.

Definition isSink (e : Event) : bool :=
  match e with
  | EvSetMode | EvSetWallpaper _ => true
  | _ => false
  end.

(** The path of the output file and the image that is encoded into it. *)
Definition outputPath (w : World) : string :=
  filepath_Join (os_TempDir w) "earth_wallpaper_full.png".

Definition finalImage (w : World) (t : time.Time) : image.RGBA :=
  bordered border (assemble (fun x y => downloadImage w resolution x y t) resolution).

(** The trace of the pipeline after a claim: fetches, file, and, when the
    file could be created, encoding and the sink. *)
Definition pipelineTrace (w : World) (t : time.Time) : list Event :=
  map (fun c => EvGo (fst c) (snd c)) (gridCoords resolution)
    ++ EvCreate (outputPath w)
    :: match os_Create w (outputPath w) with
       | Some _ => []
       | None => [EvEncode (outputPath w) (finalImage w t); EvSetMode;
                  EvSetWallpaper (outputPath w)]
       end.

(** The writes to the two package-level variables. *)
Definition isStore (e : Event) : bool :=
  match e with
  | EvStoreTime _ | EvStoreDate _ => true
  | _ => false
  end.

(* ===================================================================== *)
(** ** Sample worlds *)

Local Open Scope string_scope.

(** A tile of one colour, as the provider would serve it for a cell. *)
Definition sampleTile (i j : Z) : image.Image :=
  image.mkImage (image.Rect 0 0 tileSize tileSize) (fun _ _ => color.mkRGBA (10 * i) (10 * j) 200 255).

(** A world without network: every request fails. *)
Definition offline : World :=
  mkWorld (fun _ => inr "dial tcp: network is unreachable")
          (fun _ => inr "EOF")
          (fun _ => inr "png: invalid format: not a PNG file")
          "/tmp" (fun _ => None) (fun _ _ => None) (fun _ => None).

(** A world whose metadata source answers [date], whose tile source
    answers every request with a tile, and whose file system and encoder
    fail or not as told. *)
Definition serving (date : string) (createFails encodeFails : bool) : World :=
  mkWorld (fun url => inl (mkResponse 200 (inl url)))
          (fun body => match body with
                       | inl _ => inl (mkInfo date "PI_H09.png")
                       | inr e => inr e
                       end)
          (fun _ => inl (sampleTile 1 2))
          "/tmp"
          (fun _ => if createFails then Some "permission denied" else None)
          (fun _ _ => if encodeFails then Some "write: no space left on device" else None)
          (fun _ => None).

(** A world like [serving] in which the request for the tile (2, 1) of
    [t] times out. *)
Definition tileDown (date : string) (t : time.Time) : World :=
  mkWorld (fun url => if String.eqb url (tileURL resolution 2 1 t)
                      then inr "context deadline exceeded"
                      else inl (mkResponse 200 (inl url)))
          (json_Decode (serving date false false))
          (fun _ => inl (sampleTile 1 2))
          "/tmp" (fun _ => None) (fun _ _ => None) (fun _ => None).

Local Close Scope string_scope.

(* ===================================================================== *)
(** ** Reading a trace *)

Definition isGo (e : Event) : bool :=
  match e with
  | EvGo _ _ => true
  | _ => false
  end.

(** The number of tile fetches dispatched. *)
Definition dispatched (tr : list Event) : nat := List.length (filter isGo tr).

(** The titles given to the date item of the menu, in order. *)
Definition titles (tr : list Event) : list string :=
  flat_map (fun e => match e with EvSetTitle s => [s] | _ => [] end) tr.

(** Whether the answer of the metadata source passes the gate of
    [doFetch] in the state [g]. *)
Definition claimed (w : World) (g : Globals) : bool :=
  match latestImage w with
  | inr _ => false
  | inl raw =>
      match time.Parse raw with
      | None => false
      | Some parsed =>
          time.IsZero (latestImageTime g) || time.After parsed (latestImageTime g)
      end
  end.

(** The mutex along a trace, from the state [held]: it is locked only when
    free and unlocked only when held, the two variables are written only
    while it is held, and everything else (requests, the menu, the
    goroutines, the file, the desktop) happens only while it is free.
    The answer is the state of the mutex at the end, if the trace keeps
    to this. *)
Fixpoint lockRun (held : bool) (tr : list Event) : option bool :=
  match tr with
  | [] => Some held
  | EvLock :: tr' => if held then None else lockRun true tr'
  | EvUnlock :: tr' => if held then lockRun false tr' else None
  | EvStoreTime _ :: tr' | EvStoreDate _ :: tr' => if held then lockRun held tr' else None
  | _ :: tr' => if held then None else lockRun held tr'
  end.

(** The URL of [latest.json]. *)
Definition latestURL : string :=
  "https://jh170034-1.kudpc.kyoto-u.ac.jp/himawari/img/D531106/latest.json".

(* ===================================================================== *)
(** ** Reading a string *)

(** Every character of [s] satisfies [p]. *)
Fixpoint allChars (p : ascii -> bool) (s : string) : bool :=
  match s with
  | EmptyString => true
  | String a s' => p a && allChars p s'
  end.

(** The characters that [%d] prints. *)
Definition isNumChar (a : ascii) : bool := time.isDigit a || Ascii.eqb a "-".

(* ===================================================================== *)
(** ** The earlier variant of the program

    The same file holds an earlier [main] package: sequential downloads
    that panic on failure, and the assembled canvas scaled into an inset
    rectangle. Of it, [downloadImage] and the computation of the inset
    rectangle in [processWallpaper] are embedded here (the scaler itself,
    [xdraw.CatmullRom], is not). *)

Module V1.

Definition borderThickness : Z := 300.

(** [downloadImage]: the image, or the error it panics with. There is no
    check of the status. *)
Definition downloadImage (w : World) (resolution i j : Z) (t : time.Time)
  : image.Image + error :=
  let url := tileURL resolution i j t in
  match http_Get w url with
  | inr err => inr err
  | inl resp =>
      match Body resp with
      | inr err => inr err
      | inl buf =>
          match png_Decode w buf with
          | inr err => inr err
          | inl img => inl img
          end
      end
  end.

(** The [dstRect] of [processWallpaper] for a final image of [w] by [h]:
    the inset rectangle, or the whole image when the inset one has no
    width or no height. *)
Definition dstRect (border w h : Z) : image.Rectangle :=
  let final_Bounds := image.Rect 0 0 w h in
  let dstRect := image.Rect border border (w - border + 50) (h - border - 50) in
  if (image.Dx dstRect <=? 0) || (image.Dy dstRect <=? 0) then
    (* border too large, fallback to no border *)
    final_Bounds
  else dstRect.

End V1.

(* ===================================================================== *)
(** ** Package [wallpaper/linux]: the desktop back ends

    Each back end runs [dconf] through [exec.Command(...).Run()]. The
    shell is the list of the commands run so far together with what each
    run answers; [modes.FillStyle], [getGNOMEString] and [strconv.Quote]
    are declared outside the files at hand. *)

Section Backends.

Variable FillStyle : Type.
Variable getGNOMEString : FillStyle -> string.
Variable Quote : string -> string.

(** What running [argv] answers after the commands of [history]. *)
Variable answer : list (list string) -> list string -> option error.

Definition Shell (A : Type) : Type := list (list string) -> A * list (list string).

(** [exec.Command(argv...).Run()] *)
Definition exec_Run (argv : list string) : Shell (option error) :=
  fun history => (answer history argv, history ++ [argv]).

Local Open Scope string_scope.

Definition SetCinnamon (file : string) (mode : FillStyle) : Shell (option error) :=
  fun history =>
    let '(err, history1) :=
      exec_Run ["dconf"; "write"; "/org/cinnamon/desktop/background/picture-options";
                Quote (getGNOMEString mode)] history in
    match err with
    | Some e => (Some e, history1)
    | None =>
        exec_Run ["dconf"; "write"; "/org/cinnamon/desktop/background/picture-uri";
                  Quote ("file://" ++ file)] history1
    end.

Definition SetDeepin (file : string) (mode : FillStyle) : Shell (option error) :=
  fun history =>
    let '(err, history1) :=
      exec_Run ["dconf"; "write"; "/com/deepin/wrap/gnome/desktop/background/picture-options";
                Quote (getGNOMEString mode)] history in
    match err with
    | Some e => (Some e, history1)
    | None =>
        exec_Run ["dconf"; "write"; "/com/deepin/wrap/gnome/desktop/background/picture-uri";
                  Quote ("file://" ++ file)] history1
    end.

Definition SetMate (file : string) (mode : FillStyle) : Shell (option error) :=
  fun history =>
    let '(err, history1) :=
      exec_Run ["dconf"; "write"; "/org/mate/desktop/background/picture-options";
                Quote (getGNOMEString mode)] history in
    match err with
    | Some e => (Some e, history1)
    | None =>
        exec_Run ["dconf"; "write"; "/org/mate/desktop/background/picture-filename";
                  Quote file] history1
    end.

Local Close Scope string_scope.

End Backends.

(* ===================================================================== *)
(** ** [onReady] and [startFetcher]: starting and stopping

    The goroutine that handles the clicks on the status item owns
    [isRunning] and [stopCh]; each goroutine running [startFetcher]
    listens on the channel it was started with. A step is a click taken
    by the handler, a [doFetch] of a fetcher (its immediate one, or one on
    a tick) in the world of that moment, or the meeting of the handler's
    send on [stopCh] with the [select] of the fetcher that listens on it. *)

Inductive FetcherPC : Set :=
| FirstFetch   (* before the immediate [doFetch] *)
| Selecting.   (* in the [select] on the ticker and [stopCh] *)

Inductive HandlerPC : Set :=
| Idle         (* in [for range mLatestImageStatus.ClickedCh] *)
| Stopping.    (* blocked in [stopCh <- true] *)

Inductive AppAction : Type :=
| Click
| Fetch (k : nat) (w : World)
| Rendezvous.

Record App : Type := mkApp {
  isRunning : bool;
  fetchers : list FetcherPC;   (* latest first: the head listens on [stopCh] *)
  handler : HandlerPC;
  appGlobals : Globals;
  statusTitle : string;        (* title of [mLatestImageStatus] *)
  dateTitle : string;          (* title of [mLatestImageDate] *)
  appTrace : list Event
}.

(** The title of the date item after a trace. *)
Definition lastTitle (before : string) (tr : list Event) : string :=
  fold_left (fun acc e => match e with EvSetTitle s => s | _ => acc end) tr before.

(** The list [l] with its [k]-th element replaced, if it has one. *)
Fixpoint setNth {A : Type} (k : nat) (a : A) (l : list A) : option (list A) :=
  match l, k with
  | [], _ => None
  | _ :: l', O => Some (a :: l')
  | b :: l', S k' =>
      match setNth k' a l' with
      | Some l'' => Some (b :: l'')
      | None => None
      end
  end.

Definition initApp : App :=
  mkApp true [FirstFetch] Idle initGlobals "Latest Image: Running" "Date: --" [].

Definition appStep (a : AppAction) (s : App) : option App :=
  match a with
  | Click =>
      match handler s with
      | Stopping => None
      | Idle =>
          if isRunning s then
            Some (mkApp false (fetchers s) Stopping (appGlobals s)
                        (statusTitle s) (dateTitle s) (appTrace s))
          else
            Some (mkApp true (FirstFetch :: fetchers s) Idle (appGlobals s)
                        "Latest Image: Running" (dateTitle s) (appTrace s))
      end
  | Fetch k w =>
      match setNth k Selecting (fetchers s) with
      | None => None
      | Some fs =>
          let r := doFetch w (appGlobals s) in
          Some (mkApp (isRunning s) fs (handler s) (globalsOf r)
                      (statusTitle s) (lastTitle (dateTitle s) (traceOf r))
                      (appTrace s ++ traceOf r))
      end
  | Rendezvous =>
      match handler s, fetchers s with
      | Stopping, Selecting :: rest =>
          Some (mkApp (isRunning s) rest Idle (appGlobals s)
                      "Latest Image: Stopped" "Date: --" (appTrace s))
      | _, _ => None
      end
  end.

Fixpoint appRun (sched : list AppAction) (s : App) : option App :=
  match sched with
  | [] => Some s
  | a :: sched' =>
      match appStep a s with
      | Some s' => appRun sched' s'
      | None => None
      end
  end.

(** The worlds of the [doFetch]es of a schedule, in order. *)
Definition fetchWorlds (sched : list AppAction) : list World :=
  flat_map (fun a => match a with Fetch _ w => [w] | _ => [] end) sched.


(** What a back end that writes [c1] and then, if that went well, [c2]
    leaves behind: its result and the history. *)
Definition gated (answer : list (list string) -> list string -> option error)
           (history : list (list string)) (c1 c2 : list string)
           (r : option error * list (list string)) : Prop :=
  (forall e, answer history c1 = Some e -> r = (Some e, history ++ [c1])) /\
  (answer history c1 = None ->
   r = (answer (history ++ [c1]) c2, history ++ [c1; c2])) /\
  (fst r = None ->
   snd r = history ++ [c1; c2] /\
   answer history c1 = None /\ answer (history ++ [c1]) c2 = None).


(** What holds of the application after any schedule: who runs, what the
    menu shows, and that the package-level variables are those that the
    [doFetch]es of the schedule leave, one after the other, whichever
    fetcher made them. *)
Record AppInv (sched : list AppAction) (s : App) : Prop := mkAppInv {
  app_running :
    isRunning s = true ->
    handler s = Idle /\ List.length (fetchers s) = 1%nat /\
    statusTitle s = "Latest Image: Running"%string;
  app_stopping :
    isRunning s = false -> handler s = Stopping -> List.length (fetchers s) = 1%nat;
  app_stopped :
    isRunning s = false -> handler s = Idle ->
    fetchers s = [] /\ statusTitle s = "Latest Image: Stopped"%string /\
    dateTitle s = "Date: --"%string;
  app_globals : appGlobals s = globalsOf (ticks (fetchWorlds sched) initGlobals);
  app_trace : appTrace s = traceOf (ticks (fetchWorlds sched) initGlobals)
}.

(* ===================================================================== *)
(** * Properties *)

(** Case analysis on every integer comparison in sight. *)
Ltac zcases :=
  repeat match goal with
    | |- context [?a <? ?b] => destruct (Z.ltb_spec a b)
    | |- context [?a <=? ?b] => destruct (Z.leb_spec a b)
    | |- context [?a =? ?b] => destruct (Z.eqb_spec a b)
    end.

(** ** Rectangles and [draw.Draw] *)

Section DrawFacts.

Import image draw.

Lemma In_spec (p : Point) (r : Rectangle) :
  In p r = true <->
  X (Min r) <= X p < X (Max r) /\ Y (Min r) <= Y p < Y (Max r).
Proof.
  unfold In. rewrite !andb_true_iff, !Z.leb_le, !Z.ltb_lt. lia.
Qed.

Lemma In_false_spec (p : Point) (r : Rectangle) :
  In p r = false <->
  ~ (X (Min r) <= X p < X (Max r) /\ Y (Min r) <= Y p < Y (Max r)).
Proof.
  rewrite <- In_spec. destruct (In p r); intuition congruence.
Qed.

Lemma In_ZR (p : Point) : In p ZR = false.
Proof. apply In_false_spec. cbn. lia. Qed.

Lemma Empty_no_point (r : Rectangle) (p : Point) :
  Empty r = true -> In p r = false.
Proof.
  unfold Empty. rewrite orb_true_iff, !Z.geb_le. intros H.
  apply In_false_spec. lia.
Qed.

Lemma In_Intersect (p : Point) (r s : Rectangle) :
  In p (Intersect r s) = In p r && In p s.
Proof.
  unfold Intersect. rewrite !Z.gtb_ltb.
  match goal with |- context [Empty ?q] => destruct (Empty q) eqn:E end.
  - rewrite In_ZR. destruct (In p r && In p s) eqn:F; [exfalso|reflexivity].
    apply andb_true_iff in F. rewrite !In_spec in F.
    unfold Empty in E. cbn in E.
    rewrite orb_true_iff, !Z.geb_le in E.
    revert E. zcases; lia.
  - apply eq_true_iff_eq. rewrite andb_true_iff, !In_spec. cbn.
    unfold Empty in E. cbn in E.
    rewrite orb_false_iff, !Z.geb_leb, !Z.leb_gt in E.
    revert E. zcases; lia.
Qed.

Lemma In_Add (p d : Point) (r : Rectangle) :
  In p (Add r d) = In (PSub p d) r.
Proof.
  apply eq_true_iff_eq. rewrite !In_spec. cbn. lia.
Qed.

Lemma Draw_Rect (dst : RGBA) (r : Rectangle) (src : Image) (sp : Point) :
  Rect_ (draw.Draw dst r src sp) = Rect_ dst.
Proof.
  unfold draw.Draw. destruct (draw.clip dst r src sp) as [r' sp'].
  destruct (Empty r'); reflexivity.
Qed.

Lemma clip_In (dst : RGBA) (r : Rectangle) (src : Image) (sp : Point) (px py : Z) :
  In (Pt px py) (fst (draw.clip dst r src sp)) = written dst r src sp px py.
Proof.
  unfold draw.clip, written. cbn [fst].
  rewrite !In_Intersect, In_Add. f_equal.
  unfold srcPoint, PSub. cbn. f_equal; f_equal; lia.
Qed.

(** The pixel store after a [Draw]. *)
Lemma Draw_Pix (dst : RGBA) (r : Rectangle) (src : Image) (sp : Point) (px py : Z) :
  Pix (draw.Draw dst r src sp) px py =
  if written dst r src sp px py
  then At src (X sp + (px - X (Min r))) (Y sp + (py - Y (Min r)))
  else Pix dst px py.
Proof.
  rewrite <- clip_In. unfold draw.Draw.
  destruct (draw.clip dst r src sp) as [r' sp'] eqn:Ec. cbn [fst].
  destruct (Empty r') eqn:Ee.
  - rewrite (Empty_no_point _ _ Ee). reflexivity.
  - cbn [Pix]. destruct (In (Pt px py) r') eqn:Ei; [|reflexivity].
    unfold draw.clip in Ec. injection Ec as Er Es. rewrite Er in Es.
    subst sp'. unfold PAdd, PSub. cbn [X Y].
    f_equal; lia.
Qed.

Lemma Draw_At (dst : RGBA) (r : Rectangle) (src : Image) (sp : Point) (px py : Z) :
  RGBAAt (draw.Draw dst r src sp) px py =
  if written dst r src sp px py
  then At src (X sp + (px - X (Min r))) (Y sp + (py - Y (Min r)))
  else RGBAAt dst px py.
Proof.
  unfold RGBAAt. rewrite Draw_Rect, Draw_Pix.
  destruct (written dst r src sp px py) eqn:Ew; [|reflexivity].
  unfold written in Ew. rewrite !andb_true_iff in Ew.
  destruct Ew as [[_ ->] _]. reflexivity.
Qed.

Lemma Rect_ordered (x0 y0 x1 y1 : Z) :
  x0 <= x1 -> y0 <= y1 -> Rect x0 y0 x1 y1 = mkRectangle (Pt x0 y0) (Pt x1 y1).
Proof.
  intros Hx Hy. unfold Rect.
  destruct (x0 >? x1) eqn:E1; [rewrite Z.gtb_ltb, Z.ltb_lt in E1; lia|].
  destruct (y0 >? y1) eqn:E2; [rewrite Z.gtb_ltb, Z.ltb_lt in E2; lia|].
  reflexivity.
Qed.

End DrawFacts.

(** ** Cells and the drawing loop *)

Section TileFacts.

Import image draw.

Lemma cell_eq (cx cy : Z) :
  cell cx cy = mkRectangle (Pt (cx * tileSize) (cy * tileSize))
                           (Pt ((cx + 1) * tileSize) ((cy + 1) * tileSize)).
Proof. unfold cell. apply Rect_ordered; unfold tileSize; lia. Qed.

Lemma In_cell (px py cx cy : Z) :
  In (Pt px py) (cell cx cy) = true <->
  cx * tileSize <= px < (cx + 1) * tileSize /\
  cy * tileSize <= py < (cy + 1) * tileSize.
Proof. rewrite In_spec, cell_eq. cbn. reflexivity. Qed.

Lemma cell_disjoint (px py cx cy ex ey : Z) :
  (cx, cy) <> (ex, ey) ->
  In (Pt px py) (cell cx cy) = true ->
  In (Pt px py) (cell ex ey) = false.
Proof.
  intros Hne Hin. destruct (In (Pt px py) (cell ex ey)) eqn:E; [exfalso|reflexivity].
  rewrite In_cell in Hin, E. unfold tileSize in *.
  apply Hne. f_equal; lia.
Qed.

Lemma drawTile_Rect (c : RGBA) (res : tileResult) :
  Rect_ (drawTile c res) = Rect_ c.
Proof. unfold drawTile. rewrite Draw_Rect. reflexivity. Qed.

Lemma drawTile_Pix (c : RGBA) (res : tileResult) (px py : Z) :
  Pix (drawTile c res) px py =
  if drawn c res px py
  then At (img res) (px - x res * tileSize) (py - y res * tileSize)
  else Pix c px py.
Proof.
  unfold drawTile. rewrite Draw_Pix. unfold written, drawn, srcPoint.
  rewrite cell_eq. cbn [Min Max X Y]. rewrite !Z.add_0_l. reflexivity.
Qed.

Lemma drawTile_outside (c : RGBA) (res : tileResult) (px py : Z) :
  In (Pt px py) (cell (x res) (y res)) = false ->
  Pix (drawTile c res) px py = Pix c px py.
Proof.
  intros H. rewrite drawTile_Pix. unfold drawn. rewrite H. reflexivity.
Qed.

Lemma drawTile_ext (c c' : RGBA) (res : tileResult) (px py : Z) :
  Rect_ c = Rect_ c' -> Pix c px py = Pix c' px py ->
  Pix (drawTile c res) px py = Pix (drawTile c' res) px py.
Proof.
  intros HR HP. rewrite !drawTile_Pix. unfold drawn. rewrite HR, HP. reflexivity.
Qed.

Lemma drawLoop_Rect (l : list tileResult) (c : RGBA) :
  Rect_ (drawLoop c l) = Rect_ c.
Proof.
  revert c. induction l as [|r l IH]; intros c; cbn; [reflexivity|].
  unfold drawLoop in IH. rewrite IH. apply drawTile_Rect.
Qed.

Lemma drawLoop_outside (l : list tileResult) (c : RGBA) (px py : Z) :
  (forall r, List.In r l -> In (Pt px py) (cell (x r) (y r)) = false) ->
  Pix (drawLoop c l) px py = Pix c px py.
Proof.
  revert c. induction l as [|r l IH]; intros c H; cbn; [reflexivity|].
  unfold drawLoop in IH. rewrite IH by (intros; apply H; right; assumption).
  apply drawTile_outside, H. left. reflexivity.
Qed.

(** With one result per coordinate, a pixel of a result's cell ends as
    that result's draw leaves it, wherever the result stands in the
    order of arrival. *)
Lemma drawLoop_inside (l : list tileResult) (c : RGBA) (r : tileResult) (px py : Z) :
  NoDup (map coordOf l) ->
  List.In r l ->
  In (Pt px py) (cell (x r) (y r)) = true ->
  Pix (drawLoop c l) px py = Pix (drawTile c r) px py.
Proof.
  revert c. induction l as [|a l IH]; intros c Hnd Hin Hp; [destruct Hin|].
  cbn in Hnd. inversion Hnd as [|? ? Hnotin Hnd']; subst.
  cbn. destruct Hin as [->|Hin].
  - apply drawLoop_outside. intros r' Hr'.
    apply cell_disjoint with (cx := x r) (cy := y r); [|assumption].
    intros Heq. apply Hnotin. apply in_map_iff. exists r'. split; [|assumption].
    unfold coordOf. symmetry. exact Heq.
  - unfold drawLoop in IH. rewrite (IH _ Hnd' Hin Hp).
    apply drawTile_ext; [apply drawTile_Rect|].
    apply drawTile_outside.
    apply cell_disjoint with (cx := x r) (cy := y r); [|assumption].
    intros Heq. apply Hnotin. apply in_map_iff. exists r. split; [|assumption].
    unfold coordOf. exact Heq.
Qed.

Lemma existsb_perm {A : Type} (f : A -> bool) (l l' : list A) :
  Permutation l l' -> existsb f l = existsb f l'.
Proof.
  intros HP. apply eq_true_iff_eq. rewrite !existsb_exists.
  split; intros (a & Ha & Hf); exists a; split; try assumption.
  - eapply Permutation_in; eassumption.
  - eapply Permutation_in; [apply Permutation_sym|]; eassumption.
Qed.

Lemma drawLoop_perm (l l' : list tileResult) (c : RGBA) (px py : Z) :
  NoDup (map coordOf l) ->
  Permutation l l' ->
  Pix (drawLoop c l) px py = Pix (drawLoop c l') px py.
Proof.
  intros Hnd HP.
  assert (Hnd' : NoDup (map coordOf l')).
  { eapply Permutation_NoDup; [apply Permutation_map; exact HP|exact Hnd]. }
  destruct (existsb (fun r => In (Pt px py) (cell (x r) (y r))) l) eqn:E.
  - apply existsb_exists in E. destruct E as (r & Hr & Hp).
    rewrite (drawLoop_inside l c r px py Hnd Hr Hp).
    symmetry. apply drawLoop_inside; try assumption.
    eapply Permutation_in; eassumption.
  - assert (E' := E). rewrite (existsb_perm _ _ _ HP) in E'.
    rewrite !drawLoop_outside; [reflexivity| |].
    + intros r Hr. destruct (In (Pt px py) (cell (x r) (y r))) eqn:F; [|reflexivity].
      rewrite <- E'. symmetry. apply existsb_exists. exists r. split; assumption.
    + intros r Hr. destruct (In (Pt px py) (cell (x r) (y r))) eqn:F; [|reflexivity].
      rewrite <- E. symmetry. apply existsb_exists. exists r. split; assumption.
Qed.

End TileFacts.

(** ** The grid *)

Lemma In_upto (n i : Z) : List.In i (upto n) <-> 0 <= i < n.
Proof.
  unfold upto. rewrite in_map_iff. split.
  - intros (k & <- & Hk). apply in_seq in Hk. lia.
  - intros H. exists (Z.to_nat i). split; [lia|]. apply in_seq. lia.
Qed.

Lemma NoDup_upto (n : Z) : NoDup (upto n).
Proof.
  unfold upto. generalize (seq_NoDup (Z.to_nat n) 0).
  induction 1 as [|k l Hk Hl IH]; cbn; constructor; [|assumption].
  rewrite in_map_iff. intros (k' & Heq & Hin).
  apply Nat2Z.inj in Heq. subst k'. contradiction.
Qed.

Lemma In_gridCoords (n i j : Z) :
  List.In (i, j) (gridCoords n) <-> 0 <= i < n /\ 0 <= j < n.
Proof.
  unfold gridCoords. rewrite in_flat_map. split.
  - intros (i' & Hi & Hj). apply in_map_iff in Hj. destruct Hj as (j' & Heq & Hj).
    injection Heq as -> ->. apply In_upto in Hi, Hj. split; assumption.
  - intros [Hi Hj]. exists i. split; [apply In_upto; assumption|].
    apply in_map_iff. exists j. split; [reflexivity|apply In_upto; assumption].
Qed.

Lemma NoDup_pairs (l1 l2 : list Z) :
  NoDup l1 -> NoDup l2 ->
  NoDup (flat_map (fun i => map (fun j => (i, j)) l2) l1).
Proof.
  intros H1 H2. induction H1 as [|i l1 Hi Hl IH]; cbn; [constructor|].
  apply NoDup_app; [|assumption|].
  - clear - H2. induction H2 as [|j l2 Hj Hl IH]; cbn; constructor; [|assumption].
    rewrite in_map_iff. intros (j' & Heq & Hin). injection Heq as ->. contradiction.
  - intros [i' j'] Hin Hin'. apply in_map_iff in Hin. destruct Hin as (j0 & Heq & _).
    injection Heq as -> ->. apply in_flat_map in Hin'.
    destruct Hin' as (i0 & Hi0 & Hj0). apply in_map_iff in Hj0.
    destruct Hj0 as (j1 & Heq & _). injection Heq as -> ->. contradiction.
Qed.

Lemma NoDup_gridCoords (n : Z) : NoDup (gridCoords n).
Proof. apply NoDup_pairs; apply NoDup_upto. Qed.

Lemma length_gridCoords (n : Z) :
  List.length (gridCoords n) = (Z.to_nat n * Z.to_nat n)%nat.
Proof.
  unfold gridCoords. rewrite <- list_prod_as_flat_map, length_prod.
  unfold upto. rewrite length_map, length_seq. reflexivity.
Qed.

(** ** The goroutines of the assembly *)

Lemma coord_eqb_eq (c e : Z * Z) : coord_eqb c e = true <-> c = e.
Proof.
  destruct c as [c1 c2], e as [e1 e2]. unfold coord_eqb. cbn.
  rewrite andb_true_iff, !Z.eqb_eq. split; [intros [-> ->]; reflexivity|].
  intros H. injection H as -> ->. split; reflexivity.
Qed.

Lemma extract_spec {A : Type} (p : A -> bool) (l : list A) (a : A) (l' : list A) :
  extract p l = Some (a, l') -> p a = true /\ Permutation l (a :: l').
Proof.
  revert a l'. induction l as [|b l IH]; intros a l' H; cbn in H; [discriminate|].
  destruct (p b) eqn:E.
  - injection H as <- <-. split; [assumption|apply Permutation_refl].
  - destruct (extract p l) as [[c l'']|] eqn:E'; [|discriminate].
    injection H as <- <-. destruct (IH _ _ eq_refl) as [Hp HP].
    split; [assumption|].
    eapply perm_trans; [apply perm_skip, HP|apply perm_swap].
Qed.

(** Permutations of coordinate lists, decided by counting occurrences. *)
Ltac perm_count :=
  repeat match goal with
    | H : Permutation _ _ |- _ => rewrite (Permutation_count_occ coord_dec) in H
    end;
  apply (Permutation_count_occ coord_dec);
  let c0 := fresh "c0" in
  intros c0;
  repeat match goal with
    | H : forall x : Z * Z, count_occ _ _ x = count_occ _ _ x |- _ => specialize (H c0)
    end;
  repeat rewrite ?map_app, ?count_occ_app in *;
  cbn [map count_occ app] in *;
  repeat match goal with
    | H : context [coord_dec ?a ?b] |- _ => destruct (coord_dec a b)
    | |- context [coord_dec ?a ?b] => destruct (coord_dec a b)
    end;
  try congruence; lia.

Section AssemblyFacts.

Variable fetch : Z -> Z -> image.Image.
Variable gridSize : Z.

Local Abbreviation tileOf := (tileOf fetch).
Local Abbreviation step := (step fetch gridSize).
Local Abbreviation run := (run fetch gridSize).
Local Abbreviation initAsm := (initAsm gridSize).
Local Abbreviation genuine := (genuine fetch).
Local Abbreviation Inv := (Inv fetch gridSize).

Lemma Inv_init : Inv [] initAsm [].
Proof.
  constructor; cbn; try constructor; try reflexivity; try discriminate; try congruence.
  rewrite app_nil_r. apply Permutation_refl.
Qed.

Lemma downloads_snoc (sched : list Action) (a : Action) :
  downloads (sched ++ [a]) =
  downloads sched ++ match a with Download c => [c] | _ => [] end.
Proof.
  unfold downloads. rewrite flat_map_app. cbn. rewrite app_nil_r. reflexivity.
Qed.

Lemma launches_snoc (sched : list Action) (a : Action) :
  launches (sched ++ [a]) =
  (launches sched + match a with Launch => 1 | _ => 0 end)%nat.
Proof.
  unfold launches. rewrite filter_app, length_app. destruct a; reflexivity.
Qed.

Lemma genuine_coord (c : Z * Z) : genuine (tileOf c).
Proof. destruct c. reflexivity. Qed.

Lemma coordOf_tileOf (c : Z * Z) : coordOf (tileOf c) = c.
Proof. destruct c. reflexivity. Qed.

Lemma isAt_coordOf (c : Z * Z) (r : tileResult) : isAt c r = true -> coordOf r = c.
Proof. unfold isAt. apply coord_eqb_eq. Qed.

(** The two steps shared by the cases of the invariant's preservation. *)
Ltac inv_setup :=
  constructor;
  cbn [todo started fetched sent wg results closer pc canvas count];
  cbn [map];
  rewrite ?downloads_snoc, ?launches_snoc, ?app_nil_r, ?coordOf_tileOf.

Ltac inv_solve :=
  try assumption;
  try reflexivity;
  try (intros; discriminate);
  try (intros; congruence);
  try (cbn [List.length] in *; lia);
  try (intros; intuition congruence);
  try perm_count.

Lemma Inv_step (sched : list Action) (s s' : Asm) (arrived : list tileResult) (a : Action) :
  Inv sched s arrived ->
  step a s = Some s' ->
  exists arrived', Inv (sched ++ [a]) s' arrived'.
Proof.
  intros I Hs. destruct I.
  destruct a; cbn in Hs.
  - (* Launch *)
    destruct (pc s) eqn:Epc; try discriminate.
    destruct (todo s) as [|c rest] eqn:Et; [discriminate|].
    injection Hs as <-. exists arrived.
    inv_setup; inv_solve.
  - (* StartCloser *)
    destruct (pc s) eqn:Epc; try discriminate.
    destruct (todo s) as [|c rest] eqn:Et; [|discriminate].
    injection Hs as <-. exists arrived.
    inv_setup; inv_solve.
  - (* Download *)
    destruct (extract (coord_eqb c) (started s)) as [[e rest]|] eqn:Ex; [|discriminate].
    injection Hs as <-. apply extract_spec in Ex. destruct Ex as [He HP].
    apply coord_eqb_eq in He. subst e.
    assert (HL := Permutation_length HP).
    exists arrived.
    inv_setup; inv_solve.
    constructor; [apply genuine_coord|assumption].
  - (* Send *)
    destruct (extract (isAt c) (fetched s)) as [[r rest]|] eqn:Ex; [|discriminate].
    destruct (Z.of_nat (List.length (results s)) <? gridSize * gridSize); [|discriminate].
    injection Hs as <-. apply extract_spec in Ex. destruct Ex as [He HP].
    apply isAt_coordOf in He.
    assert (HL := Permutation_length HP).
    assert (HF : Forall genuine (r :: rest)).
    { eapply Permutation_Forall; eassumption. }
    apply (Permutation_map coordOf) in HP. cbn [map] in HP.
    inversion HF; subst.
    exists arrived.
    inv_setup; inv_solve.
    + apply Forall_app. split; [assumption|]. constructor; [assumption|constructor].
    + intros Hpc. destruct (inv_end0 Hpc) as [Hc _]. specialize (inv_closed0 Hc).
      cbn [List.length] in *. lia.
  - (* Done *)
    destruct (extract (coord_eqb c) (sent s)) as [[e rest]|] eqn:Ex; [|discriminate].
    injection Hs as <-. apply extract_spec in Ex. destruct Ex as [He HP].
    apply Permutation_length in HP.
    exists arrived.
    inv_setup; inv_solve.
    intros Hc. specialize (inv_closed0 Hc). cbn [List.length] in *. lia.
  - (* Close *)
    destruct (closer s) eqn:Ec; try discriminate.
    destruct (Z.eqb_spec (wg s) 0) as [Hz|]; [|discriminate].
    injection Hs as <-. exists arrived.
    inv_setup; inv_solve.
  - (* Recv *)
    destruct (pc s) eqn:Epc; try discriminate.
    destruct (results s) as [|res rest] eqn:Er; [discriminate|].
    injection Hs as <-. exists (arrived ++ [res]).
    inversion inv_results0; subst.
    inv_setup; rewrite ?length_app; inv_solve.
    + apply Forall_app. split; [assumption|]. constructor; [assumption|constructor].
    + rewrite inv_canvas0. unfold drawLoop. rewrite fold_left_app. reflexivity.
  - (* Exit *)
    destruct (pc s) eqn:Epc; try discriminate.
    destruct (results s) as [|res rest] eqn:Er; [|discriminate].
    destruct (closer s) eqn:Ec; try discriminate.
    injection Hs as <-. exists arrived.
    inv_setup; inv_solve.
Qed.

Lemma run_snoc (sched : list Action) (a : Action) (s : Asm) :
  run (sched ++ [a]) s =
  match run sched s with
  | Some s' => step a s'
  | None => None
  end.
Proof.
  revert s. induction sched as [|b sched IH]; intros s; cbn.
  - destruct (step a s); reflexivity.
  - destruct (step b s); [apply IH|reflexivity].
Qed.

(** The invariant holds along every schedule. *)
Lemma Inv_run (sched : list Action) (s : Asm) :
  run sched initAsm = Some s -> exists arrived, Inv sched s arrived.
Proof.
  revert s. induction sched as [|a sched IH] using rev_ind; intros s H.
  - cbn in H. injection H as <-. exists []. apply Inv_init.
  - rewrite run_snoc in H.
    destruct (run sched initAsm) as [s0|] eqn:E; [|discriminate].
    destruct (IH s0 eq_refl) as [arrived I].
    eapply Inv_step; eassumption.
Qed.

(** *** Termination: every action uses up some of what is left to do *)

Lemma step_remaining (a : Action) (s s' : Asm) :
  step a s = Some s' -> (remaining s' < remaining s)%nat.
Proof.
  intros Hs. unfold remaining.
  destruct a; cbn in Hs;
    repeat match type of Hs with
      | match ?e with _ => _ end = _ => destruct e eqn:?; try discriminate
      | (if ?e then _ else _) = _ => destruct e eqn:?; try discriminate
      end;
    injection Hs as <-;
    repeat match goal with
      | H : extract _ _ = Some _ |- _ =>
          apply extract_spec in H; destruct H as [_ H]; apply Permutation_length in H
      | H : _ = _ :> list _ |- _ => rewrite H in *; clear H
      | H : _ = _ :> MainPC |- _ => rewrite H in *; clear H
      | H : _ = _ :> CloserPC |- _ => rewrite H in *; clear H
      end;
    cbn [todo started fetched sent wg results closer pc canvas count
         pcWeight closerWeight List.length] in *;
    rewrite ?length_app; cbn [List.length];
    try lia;
    destruct (closer s); cbn [closerWeight]; lia.
Qed.

Lemma run_remaining (sched : list Action) (s s' : Asm) :
  run sched s = Some s' -> (List.length sched + remaining s' <= remaining s)%nat.
Proof.
  revert s. induction sched as [|a sched IH]; intros s H; cbn in H.
  - injection H as <-. cbn. lia.
  - destruct (step a s) as [s1|] eqn:E; [|discriminate].
    apply step_remaining in E. apply IH in H. cbn [List.length]. lia.
Qed.

(** *** Progress: short of the end, some goroutine can move *)

Lemma progress (sched : list Action) (s : Asm) (arrived : list tileResult) :
  Inv sched s arrived ->
  pc s <> Assembled ->
  exists a s', step a s = Some s'.
Proof.
  intros I Hpc. destruct I.
  destruct (pc s) eqn:Epc; [| |congruence].
  - (* in the loops *)
    destruct (todo s) as [|c rest] eqn:Et.
    + exists StartCloser. cbn. rewrite Epc, Et. eauto.
    + exists Launch. cbn. rewrite Epc, Et. eauto.
  - (* in the range loop *)
    destruct (results s) as [|res rest] eqn:Er.
    2:{ exists Recv. cbn. rewrite Epc, Er. eauto. }
    destruct (closer s) eqn:Ec.
    + destruct inv_closer0 as [_ H]. specialize (H eq_refl). congruence.
    + (* the closer waits *)
      destruct (started s) as [|c st] eqn:Es.
      2:{ exists (Download c). cbn. rewrite Es. cbn.
          replace (coord_eqb c c) with true; [eauto|].
          symmetry. apply coord_eqb_eq. reflexivity. }
      destruct (fetched s) as [|r fe] eqn:Ef.
      2:{ exists (Send (coordOf r)). cbn. rewrite Ef, Er. cbn.
          replace (isAt (coordOf r) r) with true
            by (symmetry; apply coord_eqb_eq; reflexivity).
          assert (Hg : 0 < gridSize * gridSize).
          { (* some coordinate exists, hence the grid is not empty *)
            apply Permutation_length in inv_coords0.
            cbn in inv_coords0.
            rewrite !length_app in inv_coords0. cbn in inv_coords0.
            unfold gridCoords in inv_coords0.
            destruct (Z.to_nat gridSize) eqn:En.
            - unfold upto in inv_coords0. rewrite En in inv_coords0.
              cbn in inv_coords0. lia.
            - nia. }
          destruct (Z.ltb_spec 0 (gridSize * gridSize)); [eauto|lia]. }
      destruct (sent s) as [|c se] eqn:Ese.
      2:{ exists (Done c). cbn. rewrite Ese. cbn.
          replace (coord_eqb c c) with true; [eauto|].
          symmetry. apply coord_eqb_eq. reflexivity. }
      exists Close. cbn. rewrite Ec. rewrite inv_wg0. cbn. eauto.
    + exists Exit. cbn. rewrite Epc, Er, Ec. eauto.
Qed.

(** From every reachable state some schedule leads to the end of the
    range loop. *)
Lemma reaches_end (n : nat) :
  forall sched s arrived,
    Inv sched s arrived -> (remaining s <= n)%nat ->
    exists rest s', run rest s = Some s' /\ pc s' = Assembled.
Proof.
  induction n as [|n IH]; intros sched s arrived I Hn.
  - destruct (pc s) eqn:Epc.
    + unfold remaining in Hn. rewrite Epc in Hn. cbn in Hn. lia.
    + unfold remaining in Hn. rewrite Epc in Hn. cbn in Hn. lia.
    + exists [], s. split; [reflexivity|assumption].
  - destruct (pc s) eqn:Epc.
    3:{ exists [], s. split; [reflexivity|assumption]. }
    all: destruct (progress sched s arrived I) as (a & s1 & Hs); [congruence|];
      destruct (Inv_step _ _ _ _ _ I Hs) as [arrived1 I1];
      pose proof (step_remaining _ _ _ Hs) as Hlt;
      destruct (IH _ _ _ I1) as (rest & s' & Hr & He); [lia|];
      exists (a :: rest), s'; cbn; rewrite Hs; split; assumption.
Qed.

(** *** The canvas at the end *)

Lemma map_coordOf_tileOf (l : list (Z * Z)) : map coordOf (map tileOf l) = l.
Proof.
  induction l as [|c l IH]; cbn; [reflexivity|].
  rewrite IH, coordOf_tileOf. reflexivity.
Qed.

Lemma genuine_map (l : list tileResult) :
  Forall genuine l -> l = map tileOf (map coordOf l).
Proof.
  induction 1 as [|r l Hr Hl IH]; cbn; [reflexivity|].
  rewrite <- IH. f_equal. exact Hr.
Qed.

Lemma assembled (sched : list Action) (s : Asm) :
  run sched initAsm = Some s ->
  pc s = Assembled ->
  Permutation (downloads sched) (gridCoords gridSize) /\
  launches sched = List.length (gridCoords gridSize) /\
  count s = Z.of_nat (List.length (gridCoords gridSize)) /\
  results s = [] /\ wg s = 0 /\
  image.Rect_ (canvas s) = image.Rect_ (newCanvas gridSize) /\
  forall px py,
    image.Pix (canvas s) px py = image.Pix (assemble fetch gridSize) px py.
Proof.
  intros Hrun Hpc. destruct (Inv_run _ _ Hrun) as [arrived I]. destruct I.
  destruct (inv_end0 Hpc) as [Hc Hr].
  specialize (inv_closed0 Hc).
  assert (Ht : todo s = []) by (apply inv_todo0; congruence).
  assert (Hst : started s = []) by (destruct (started s); [reflexivity|cbn in *; lia]).
  assert (Hfe : fetched s = []) by (destruct (fetched s); [reflexivity|cbn in *; lia]).
  rewrite Ht, Hst, Hfe, Hr in *. cbn [map app List.length] in *.
  assert (HP : Permutation arrived (map tileOf (gridCoords gridSize))).
  { rewrite (genuine_map arrived inv_arrived0). apply Permutation_map. assumption. }
  repeat split.
  - eapply perm_trans; eassumption.
  - lia.
  - rewrite inv_count0. f_equal. apply Permutation_length in inv_coords0.
    rewrite length_map in inv_coords0. assumption.
  - assumption.
  - rewrite inv_canvas0. apply drawLoop_Rect.
  - intros px py. rewrite inv_canvas0. unfold assemble.
    apply drawLoop_perm; [|assumption].
    eapply Permutation_NoDup; [apply Permutation_sym; eassumption|].
    apply NoDup_gridCoords.
Qed.

(** Every pixel of a cell of the grid holds the pixel of the image
    fetched for that cell, the zero colour where the image is short. *)
Lemma assemble_pixel (i j px py : Z) :
  0 <= i < gridSize -> 0 <= j < gridSize ->
  i * tileSize <= px < (i + 1) * tileSize ->
  j * tileSize <= py < (j + 1) * tileSize ->
  image.RGBAAt (assemble fetch gridSize) px py =
  if image.In (image.Pt (px - i * tileSize) (py - j * tileSize)) (image.Bounds (fetch i j))
  then image.At (fetch i j) (px - i * tileSize) (py - j * tileSize)
  else color.Zero.
Proof.
  intros Hi Hj Hx Hy. unfold image.RGBAAt, assemble.
  rewrite drawLoop_Rect.
  assert (Hc : image.In (image.Pt px py) (image.Rect_ (newCanvas gridSize)) = true).
  { unfold newCanvas, image.NewRGBA. cbn [image.Rect_].
    rewrite Rect_ordered by (unfold tileSize; lia).
    apply In_spec. cbn. unfold tileSize in *. nia. }
  rewrite Hc.
  rewrite (drawLoop_inside _ _ (tileOf (i, j)) px py).
  - rewrite drawTile_Pix. unfold drawn. cbn [x y img tileOf fst snd].
    rewrite Hc.
    replace (image.In (image.Pt px py) (cell i j)) with true
      by (symmetry; apply In_cell; split; assumption).
    cbn [andb]. reflexivity.
  - rewrite map_coordOf_tileOf. apply NoDup_gridCoords.
  - apply in_map. apply In_gridCoords. split; assumption.
  - cbn [x y tileOf fst snd]. apply In_cell. split; assumption.
Qed.

End AssemblyFacts.

(* ===================================================================== *)
(** * The claims *)

(** ** [downloadImage] *)

(** C5 — [downloadImage] never hands an error to its caller: whenever the
    request fails, the status is not 200, the body cannot be read or the
    PNG cannot be decoded, it returns the blank placeholder, whose bounds
    are [tileSize] by [tileSize] (550 by 550) and whose every pixel is the
    zero colour. *)
Theorem downloadImage_failure_blank (w : World) (res i j : Z) (t : time.Time) :
  (exists e, http_Get w (tileURL res i j t) = inr e) \/
  (exists resp, http_Get w (tileURL res i j t) = inl resp /\ StatusCode resp <> 200) \/
  (exists resp e, http_Get w (tileURL res i j t) = inl resp /\ Body resp = inr e) \/
  (exists resp buf e, http_Get w (tileURL res i j t) = inl resp /\
                      Body resp = inl buf /\ png_Decode w buf = inr e) ->
  downloadImage w res i j t = blankTile /\
  image.Bounds (downloadImage w res i j t)
    = image.mkRectangle (image.Pt 0 0) (image.Pt 550 550) /\
  image.Dx (image.Bounds (downloadImage w res i j t)) = tileSize /\
  image.Dy (image.Bounds (downloadImage w res i j t)) = tileSize /\
  forall px py, image.At (downloadImage w res i j t) px py = color.Zero.
Proof.
  intros H.
  assert (E : downloadImage w res i j t = blankTile).
  { unfold downloadImage.
    destruct H as [[e ->]|[(resp & -> & Hs)|[(resp & e & -> & Hb)|(resp & buf & e & -> & Hb & Hd)]]].
    - reflexivity.
    - destruct (Z.eqb_spec (StatusCode resp) 200); [contradiction|reflexivity].
    - destruct (negb _); [reflexivity|]. rewrite Hb. reflexivity.
    - destruct (negb _); [reflexivity|]. rewrite Hb, Hd. reflexivity. }
  rewrite E. repeat split.
  intros px py. cbn. unfold image.RGBAAt. cbn.
  destruct (image.In _ _); reflexivity.
Qed.

Lemma downloadImage_failure_blank_witness :
  downloadImage offline resolution 3 1 (time.Date 2026 1 11 16 10 0 0) = blankTile /\
  image.At (downloadImage offline resolution 3 1 (time.Date 2026 1 11 16 10 0 0)) 7 9
  = color.Zero.
Proof.
  destruct (downloadImage_failure_blank offline resolution 3 1
              (time.Date 2026 1 11 16 10 0 0)) as (E & _ & _ & _ & Hz).
  - left. eexists. reflexivity.
  - split; [exact E|apply Hz].
Defined.

(** C8 — called with the zero timestamp, [downloadImage] does not fail: it
    puts the fallback date (2026, 01, 10, 02:00:00) into the request URL
    and from there on does what it does for that timestamp. *)
Theorem downloadImage_zero_time (w : World) (res i j : Z) :
  tileURL res i j time.Zero
  = ("https://anzu.shinshu-u.ac.jp/himawari/img/D531106/" ++ fmt.d res
       ++ "d/550/2026/01/10/020000_" ++ fmt.d i ++ "_" ++ fmt.d j ++ ".png")%string /\
  tileURL res i j time.Zero = tileURL res i j (time.Date 2026 1 10 2 0 0 0) /\
  downloadImage w res i j time.Zero
  = downloadImage w res i j (time.Date 2026 1 10 2 0 0 0).
Proof.
  assert (E : tileURL res i j time.Zero = tileURL res i j (time.Date 2026 1 10 2 0 0 0)).
  { unfold tileURL.
    replace (urlFields (time.Date 2026 1 10 2 0 0 0)) with (urlFields time.Zero)
      by (vm_compute; reflexivity).
    reflexivity. }
  split; [reflexivity|]. split; [exact E|].
  unfold downloadImage. rewrite E. reflexivity.
Qed.
Example Parse_scenario :
  time.Parse "2026-01-11 16:10:00" = Some (time.Date 2026 1 11 16 10 0 0).
Proof. vm_compute. reflexivity. Qed.

Example Parse_fields :
  let t := time.Date 2026 1 11 16 10 0 0 in
  (time.Year t, time.Month t, time.Day t, time.Hour t, time.Minute t, time.Second t)
  = (2026, 1, 11, 16, 10, 0).
Proof. vm_compute. reflexivity. Qed.

Example Parse_zero : time.Parse "0001-01-01 00:00:00" = Some time.Zero.
Proof. vm_compute. reflexivity. Qed.

Example Parse_unparsable : time.Parse "soon" = None.
Proof. vm_compute. reflexivity. Qed.

Example d0_examples :
  (fmt.d0 4 2026, fmt.d0 2 1, fmt.d0 2 16, fmt.d0 4 0, fmt.d0 4 (-5), fmt.d 3)
  = ("2026", "01", "16", "0000", "-005", "3")%string.
Proof. vm_compute. reflexivity. Qed.

(** ** The drawing loop *)

(** C10 — a tile draw writes only inside its own cell: the destination of
    the result for coordinate (x, y) is exactly the rectangle
    [x*550, (x+1)*550) by [y*550, (y+1)*550); outside it the canvas keeps
    every pixel (and it keeps its bounds), whatever the bounds of the
    decoded image; and since the cells of distinct coordinates share no
    pixel, the result of another coordinate changes nothing in this
    cell. *)
Theorem drawTile_own_cell (canvas : image.RGBA) (res : tileResult) (px py : Z) :
  cell (x res) (y res)
  = image.mkRectangle (image.Pt (x res * 550) (y res * 550))
                      (image.Pt ((x res + 1) * 550) ((y res + 1) * 550)) /\
  image.Rect_ (drawTile canvas res) = image.Rect_ canvas /\
  (~ (x res * 550 <= px < (x res + 1) * 550 /\ y res * 550 <= py < (y res + 1) * 550) ->
   image.Pix (drawTile canvas res) px py = image.Pix canvas px py /\
   image.RGBAAt (drawTile canvas res) px py = image.RGBAAt canvas px py) /\
  (forall other : tileResult,
      (x other, y other) <> (x res, y res) ->
      x res * 550 <= px < (x res + 1) * 550 /\ y res * 550 <= py < (y res + 1) * 550 ->
      image.In (image.Pt px py) (cell (x other) (y other)) = false /\
      image.Pix (drawTile canvas other) px py = image.Pix canvas px py).
Proof.
  split; [apply cell_eq|]. split; [apply drawTile_Rect|]. split.
  - intros Hout.
    assert (Hc : image.In (image.Pt px py) (cell (x res) (y res)) = false).
    { destruct (image.In _ _) eqn:E; [|reflexivity].
      apply In_cell in E. unfold tileSize in E. contradiction. }
    assert (HP := drawTile_outside canvas res px py Hc).
    split; [exact HP|].
    unfold image.RGBAAt. rewrite drawTile_Rect, HP. reflexivity.
  - intros other Hne Hin.
    assert (Hc : image.In (image.Pt px py) (cell (x other) (y other)) = false).
    { apply cell_disjoint with (cx := x res) (cy := y res).
      - congruence.
      - apply In_cell. exact Hin. }
    split; [exact Hc|apply drawTile_outside; exact Hc].
Qed.

Lemma drawTile_own_cell_witness :
  (* an image larger than a cell, drawn at (1, 2), leaves the first pixel
     of the cell (2, 2) next to it untouched *)
  let big := image.mkImage (image.Rect 0 0 4000 4000) (fun _ _ => color.Black) in
  image.Pix (drawTile (newCanvas resolution) (mkTile 1 2 big)) 1100 1100
  = image.Pix (newCanvas resolution) 1100 1100.
Proof.
  intros big.
  destruct (drawTile_own_cell (newCanvas resolution) (mkTile 1 2 big) 1100 1100)
    as (_ & _ & Hout & _).
  apply Hout. cbn. lia.
Defined.

(** C3 — for a fixed set of tile results, one per coordinate (the 16 of a
    grid in particular), the drawing loop builds the same canvas, pixel
    for pixel, whatever the order in which the results are received:
    where a result lands depends on its coordinate alone. *)
Theorem drawLoop_order_independent (canvas : image.RGBA) (rs rs' : list tileResult) :
  NoDup (map coordOf rs) ->
  Permutation rs rs' ->
  image.Rect_ (drawLoop canvas rs) = image.Rect_ (drawLoop canvas rs') /\
  forall px py,
    image.Pix (drawLoop canvas rs) px py = image.Pix (drawLoop canvas rs') px py /\
    image.RGBAAt (drawLoop canvas rs) px py = image.RGBAAt (drawLoop canvas rs') px py.
Proof.
  intros Hnd HP.
  assert (HR : image.Rect_ (drawLoop canvas rs) = image.Rect_ (drawLoop canvas rs')).
  { rewrite !drawLoop_Rect. reflexivity. }
  split; [exact HR|]. intros px py.
  assert (HPx := drawLoop_perm rs rs' canvas px py Hnd HP).
  split; [exact HPx|].
  unfold image.RGBAAt. rewrite HR, HPx. reflexivity.
Qed.

Lemma drawLoop_order_independent_witness :
  (* the 16 results of a grid, received in launch order and in the
     opposite order *)
  let rs := map (tileOf sampleTile) (gridCoords resolution) in
  image.RGBAAt (drawLoop (newCanvas resolution) rs) 600 30
  = image.RGBAAt (drawLoop (newCanvas resolution) (rev rs)) 600 30.
Proof.
  intros rs.
  destruct (drawLoop_order_independent (newCanvas resolution) rs (rev rs)) as [_ H].
  - unfold rs. rewrite map_coordOf_tileOf. apply NoDup_gridCoords.
  - apply Permutation_rev.
  - apply H.
Defined.

(** ** The border *)

Lemma bordered_size (canvas : image.RGBA) (w h b : Z) :
  0 <= w -> 0 <= h -> 0 <= b ->
  image.Rect_ canvas = image.Rect 0 0 w h ->
  image.Rect_ (bordered b canvas)
  = image.mkRectangle (image.Pt 0 0) (image.Pt (w + 2 * b) (h + 2 * b)) /\
  image.Dx (image.Rect_ (bordered b canvas)) = w + 2 * b /\
  image.Dy (image.Rect_ (bordered b canvas)) = h + 2 * b.
Proof.
  intros Hw Hh Hb HR.
  rewrite Rect_ordered in HR by assumption.
  assert (HB : image.Rect_ (bordered b canvas)
               = image.mkRectangle (image.Pt 0 0) (image.Pt (w + 2 * b) (h + 2 * b))).
  { unfold bordered. rewrite !Draw_Rect. cbn [image.Bounds image.ofRGBA].
    rewrite HR. unfold image.Dx, image.Dy. cbn [image.Min image.Max image.X image.Y].
    unfold image.NewRGBA. cbn [image.Rect_].
    rewrite Rect_ordered by lia. f_equal. f_equal; lia. }
  split; [exact HB|]. rewrite HB. unfold image.Dx, image.Dy.
  cbn [image.Min image.Max image.X image.Y]. split; lia.
Qed.

(** C4 — for a canvas of width [w] and height [h] and a border of width
    [b], the border step yields an image of exactly [w + 2b] by [h + 2b]
    pixels; every pixel of it outside the centred rectangle
    [b, b+w) by [b, b+h) is black, and every pixel inside is the pixel of
    the canvas that lies [b] to the left and [b] up, unscaled. With
    [w = h = 4*550] and [b = 180], as in [processWallpaper], the image is
    2560 by 2560. (Sizes stay within the 10^9 that bound an
    [image.Uniform].) *)
Theorem bordered_spec (canvas : image.RGBA) (w h b : Z) :
  0 <= w -> 0 <= h -> 0 <= b ->
  w + 2 * b <= 1000000000 -> h + 2 * b <= 1000000000 ->
  image.Rect_ canvas = image.Rect 0 0 w h ->
  image.Rect_ (bordered b canvas)
  = image.mkRectangle (image.Pt 0 0) (image.Pt (w + 2 * b) (h + 2 * b)) /\
  image.Dx (image.Rect_ (bordered b canvas)) = w + 2 * b /\
  image.Dy (image.Rect_ (bordered b canvas)) = h + 2 * b /\
  (forall px py,
      0 <= px < w + 2 * b -> 0 <= py < h + 2 * b ->
      image.RGBAAt (bordered b canvas) px py =
      if (b <=? px) && (px <? b + w) && (b <=? py) && (py <? b + h)
      then image.RGBAAt canvas (px - b) (py - b)
      else color.Black) /\
  (w = 4 * 550 -> h = 4 * 550 -> b = 180 ->
   image.Dx (image.Rect_ (bordered b canvas)) = 2560 /\
   image.Dy (image.Rect_ (bordered b canvas)) = 2560).
Proof.
  intros Hw Hh Hb Hwb Hhb HR.
  destruct (bordered_size canvas w h b Hw Hh Hb HR) as (HB & HDx & HDy).
  rewrite Rect_ordered in HR by assumption.
  split; [exact HB|]. split; [exact HDx|]. split; [exact HDy|].
  split; [|intros -> -> ->; rewrite HDx, HDy; split; reflexivity].
  intros px py Hx Hy.
  unfold bordered. cbn [image.Bounds image.ofRGBA]. rewrite HR.
  unfold image.Dx, image.Dy. cbn [image.Min image.Max image.X image.Y].
  rewrite !Z.sub_0_r.
  rewrite Draw_At. unfold draw.written at 1. rewrite Draw_Rect.
  unfold image.NewRGBA at 1. cbn [image.Rect_ image.Bounds image.ofRGBA].
  rewrite HR. unfold draw.srcPoint.
  rewrite !(Rect_ordered b b) by lia. rewrite (Rect_ordered 0 0) by lia.
  cbn [image.Min image.Max image.X image.Y].
  unfold image.In at 1 2 3. cbn [image.Min image.Max image.X image.Y].
  rewrite !Z.add_0_l.
  destruct ((b <=? px) && (px <? b + w) && (b <=? py) && (py <? b + h)) eqn:Ein.
  - rewrite !andb_true_iff, !Z.leb_le, !Z.ltb_lt in Ein.
    replace ((0 <=? px) && (px <? w + b * 2) && (0 <=? py) && (py <? h + b * 2)) with true
      by (symmetry; rewrite !andb_true_iff, !Z.leb_le, !Z.ltb_lt; lia).
    replace ((0 <=? px - b) && (px - b <? w) && (0 <=? py - b) && (py - b <? h)) with true
      by (symmetry; rewrite !andb_true_iff, !Z.leb_le, !Z.ltb_lt; lia).
    reflexivity.
  - cbn [andb].
    rewrite Draw_At. unfold draw.written. unfold image.NewRGBA. cbn [image.Rect_ image.Bounds image.Uniform].
    unfold draw.srcPoint.
    cbn [image.Min image.Max image.X image.Y image.At].
    unfold image.In. cbn [image.Min image.Max image.X image.Y].
    rewrite !Z.add_0_l, !Z.sub_0_r.
    replace ((0 <=? px) && (px <? w + b * 2) && (0 <=? py) && (py <? h + b * 2)) with true
      by (symmetry; rewrite !andb_true_iff, !Z.leb_le, !Z.ltb_lt; lia).
    replace ((-1000000000 <=? px) && (px <? 1000000000)
             && (-1000000000 <=? py) && (py <? 1000000000)) with true
      by (symmetry; rewrite !andb_true_iff, !Z.leb_le, !Z.ltb_lt; lia).
    reflexivity.
Qed.

Lemma bordered_spec_witness :
  (* the canvas of [processWallpaper], all tiles served *)
  let canvas := assemble sampleTile resolution in
  image.Rect_ (bordered border canvas)
  = image.mkRectangle (image.Pt 0 0) (image.Pt 2560 2560) /\
  image.RGBAAt (bordered border canvas) 100 2000 = color.Black /\
  image.RGBAAt (bordered border canvas) 180 180 = image.RGBAAt canvas 0 0.
Proof.
  intros canvas.
  destruct (bordered_spec canvas 2200 2200 border) as (HR & _ & _ & Hpix & _);
    try (unfold border; lia).
  - unfold canvas, assemble. rewrite drawLoop_Rect. reflexivity.
  - split; [exact HR|]. split.
    + rewrite (Hpix 100 2000) by (unfold border; lia). reflexivity.
    + rewrite (Hpix 180 180) by (unfold border; lia). reflexivity.
Defined.

(** ** Grid assembly *)

Lemma eager_runs (fetch : Z -> Z -> image.Image) :
  option_map pc (run fetch resolution (eager resolution) (initAsm resolution))
  = Some Assembled.
Proof. vm_compute. reflexivity. Qed.

(** C2 — with [gridSize = 4], whatever the timestamp and whatever the
    network does: the goroutines of [processWallpaper] can always run to
    the end of the range loop, no schedule leaves them stuck before it or
    lets them run on for ever, and when the range loop ends exactly 16
    fetches have been dispatched and made, one per coordinate (i, j) with
    i and j in [0, 4), all 16 results have been received, and the canvas,
    2200 by 2200, holds in every cell, at offset (i*550, j*550), the image
    fetched for (i, j): no cell is left out, a failed fetch filling its
    cell with the blank placeholder. *)
Theorem processWallpaper_grid (w : World) (t : time.Time) :
  let fetch := fun x y => downloadImage w resolution x y t in
  (exists s,
      run fetch resolution (eager resolution) (initAsm resolution) = Some s /\
      pc s = Assembled) /\
  (forall sched s,
      run fetch resolution sched (initAsm resolution) = Some s ->
      (List.length sched <= 86)%nat /\
      (pc s <> Assembled -> exists a s', step fetch resolution a s = Some s')) /\
  (forall sched s,
      run fetch resolution sched (initAsm resolution) = Some s ->
      pc s = Assembled ->
      launches sched = 16%nat /\
      Permutation (downloads sched) (gridCoords 4) /\
      NoDup (downloads sched) /\
      List.length (downloads sched) = 16%nat /\
      count s = 16 /\ results s = [] /\ wg s = 0 /\
      image.Rect_ (canvas s) = image.mkRectangle (image.Pt 0 0) (image.Pt 2200 2200) /\
      (forall px py,
          image.Pix (canvas s) px py = image.Pix (assemble fetch resolution) px py) /\
      (forall i j px py,
          0 <= i < 4 -> 0 <= j < 4 ->
          i * 550 <= px < (i + 1) * 550 -> j * 550 <= py < (j + 1) * 550 ->
          image.RGBAAt (canvas s) px py =
          (if image.In (image.Pt (px - i * 550) (py - j * 550)) (image.Bounds (fetch i j))
           then image.At (fetch i j) (px - i * 550) (py - j * 550)
           else color.Zero) /\
          (fetch i j = blankTile -> image.RGBAAt (canvas s) px py = color.Zero))).
Proof.
  intros fetch. split; [|split].
  - pose proof (eager_runs fetch) as H.
    destruct (run fetch resolution (eager resolution) (initAsm resolution)) as [s|];
      [|discriminate].
    exists s. split; [reflexivity|]. cbn in H. congruence.
  - intros sched s Hrun. split.
    + apply run_remaining in Hrun.
      replace (remaining (initAsm resolution)) with 86%nat in Hrun by reflexivity.
      lia.
    + intros Hpc. destruct (Inv_run _ _ _ _ Hrun) as [arrived I].
      eapply progress; eassumption.
  - intros sched s Hrun Hpc.
    destruct (assembled _ _ _ _ Hrun Hpc) as (HP & HL & HC & HRs & HW & HR & HPix).
    assert (Hlen : List.length (gridCoords resolution) = 16%nat) by reflexivity.
    split; [congruence|]. split; [exact HP|]. split.
    { eapply Permutation_NoDup; [apply Permutation_sym; exact HP|apply NoDup_gridCoords]. }
    split. { apply Permutation_length in HP. congruence. }
    split. { rewrite HC, Hlen. reflexivity. }
    split; [exact HRs|]. split; [exact HW|]. split; [exact HR|]. split; [exact HPix|].
    intros i j px py Hi Hj Hx Hy.
    assert (HA : image.RGBAAt (canvas s) px py
                 = image.RGBAAt (assemble fetch resolution) px py).
    { unfold image.RGBAAt. rewrite HR, HPix. unfold assemble.
      rewrite drawLoop_Rect. reflexivity. }
    assert (HF := assemble_pixel fetch resolution i j px py Hi Hj Hx Hy).
    unfold tileSize in HF. rewrite <- HA in HF. split; [exact HF|].
    intros Hblank. rewrite HF, Hblank. clear.
    destruct (image.In _ _); [|reflexivity].
    unfold blankTile. cbn [image.At image.ofRGBA]. unfold image.RGBAAt.
    destruct (image.In _ _); reflexivity.
Qed.

Lemma processWallpaper_grid_witness :
  let t := time.Date 2026 1 11 16 10 0 0 in
  let fetch := fun x y => downloadImage (tileDown "2026-01-11 16:10:00" t) resolution x y t in
  exists s,
    run fetch resolution (eager resolution) (initAsm resolution) = Some s /\
    count s = 16 /\
    image.RGBAAt (canvas s) 1200 600 = color.Zero /\
    image.RGBAAt (canvas s) 5 5 = color.mkRGBA 10 20 200 255.
Proof.
  intros t fetch.
  destruct (processWallpaper_grid (tileDown "2026-01-11 16:10:00" t) t)
    as ((s & Hrun & Hpc) & _ & Hend).
  exists s. split; [exact Hrun|].
  destruct (Hend _ s Hrun Hpc) as (_ & _ & _ & _ & Hc & _ & _ & _ & _ & Hcell).
  split; [exact Hc|]. split.
  - destruct (Hcell 2 1 1200 600) as [_ Hb]; try lia.
    apply Hb. vm_compute. reflexivity.
  - destruct (Hcell 0 0 5 5) as [Hv _]; try lia.
    rewrite Hv. vm_compute. reflexivity.
Defined.

(** ** The staleness gate *)

Lemma claim_run (parsed : time.Time) (raw : string) (g : Globals) :
  claim parsed raw g =
  if time.IsZero (latestImageTime g) || time.After parsed (latestImageTime g)
  then (true, mkGlobals raw parsed, [EvLock; EvStoreTime parsed; EvStoreDate raw; EvUnlock])
  else (false, g, [EvLock; EvUnlock]).
Proof.
  unfold claim, bind, emit, readTime, storeTime, storeDate, ret. cbn.
  destruct (time.IsZero (latestImageTime g) || time.After parsed (latestImageTime g));
    reflexivity.
Qed.

Lemma newer_iff (parsed prev : time.Time) :
  time.IsZero prev || time.After parsed prev = true <-> prev = time.Zero \/ prev < parsed.
Proof.
  unfold time.IsZero, time.After, time.Zero.
  rewrite orb_true_iff, Z.eqb_eq, Z.gtb_ltb, Z.ltb_lt. reflexivity.
Qed.

Lemma claims_cons (parsed : time.Time) (raw : string) (cands : list (time.Time * string))
      (g : Globals) :
  claims ((parsed, raw) :: cands) g =
  (valueOf (claim parsed raw g) :: valueOf (claims cands (globalsOf (claim parsed raw g))),
   globalsOf (claims cands (globalsOf (claim parsed raw g))),
   traceOf (claim parsed raw g) ++ traceOf (claims cands (globalsOf (claim parsed raw g)))).
Proof.
  cbn [claims]. unfold bind at 1.
  destruct (claim parsed raw g) as [[ok g1] tr1]. unfold bind at 1.
  unfold valueOf, globalsOf, traceOf. cbn [fst snd].
  destruct (claims cands g1) as [[oks g2] tr2]. cbn. rewrite app_nil_r. reflexivity.
Qed.

Lemma latest_cons (d t : time.Time) (l : list time.Time) :
  latest d (t :: l) = Z.max t (latest t l).
Proof.
  unfold latest. destruct l as [|u l]; cbn; [lia|].
  revert t u. induction l as [|v l IH]; intros t u; cbn; [lia|].
  rewrite (IH (Z.max t u) v), (IH u v). lia.
Qed.

Lemma latest_upper (d : time.Time) (l : list time.Time) (t : time.Time) :
  List.In t l -> t <= latest d l.
Proof.
  revert d. induction l as [|u l IH]; intros d Hin; [destruct Hin|].
  rewrite latest_cons. destruct Hin as [->|Hin]; [lia|].
  specialize (IH u Hin). lia.
Qed.

(** From a state that holds a timestamp, candidates never lower it; those
    taken are all later than it, and the last one taken is the latest. *)
Lemma claims_from_set (cands : list (time.Time * string)) (g : Globals) :
  latestImageTime g <> time.Zero ->
  (forall c, List.In c cands -> fst c <> time.Zero) ->
  let r := claims cands g in
  latestImageTime (globalsOf r)
  = latest (latestImageTime g) (taken cands (valueOf r)) /\
  latestImageTime g <= latestImageTime (globalsOf r) /\
  (taken cands (valueOf r) = [] -> globalsOf r = g) /\
  (forall t, List.In t (taken cands (valueOf r)) -> latestImageTime g < t).
Proof.
  revert g. induction cands as [|[parsed raw] cands IH]; intros g Hg Hnz.
  - cbn. repeat split; try lia; intros t [].
  - cbn zeta. rewrite claims_cons. unfold valueOf, globalsOf. cbn [fst snd].
    rewrite claim_run.
    assert (Hp : parsed <> time.Zero) by (apply (Hnz (parsed, raw)); left; reflexivity).
    assert (Hnz' : forall c, List.In c cands -> fst c <> time.Zero)
      by (intros c Hc; apply Hnz; right; exact Hc).
    destruct (time.IsZero (latestImageTime g) || time.After parsed (latestImageTime g)) eqn:E.
    + apply newer_iff in E. destruct E as [E|E]; [contradiction|].
      cbn [fst snd taken].
      destruct (IH (mkGlobals raw parsed) Hp Hnz') as (H1 & H2 & H3 & H4).
      unfold valueOf, globalsOf in *. cbn [latestImageTime] in *.
      rewrite latest_cons. repeat split.
      * rewrite H1.
        assert (parsed <= latest parsed
                            (taken cands (fst (fst (claims cands (mkGlobals raw parsed)))))).
        { rewrite <- H1. exact H2. }
        lia.
      * lia.
      * discriminate.
      * intros t [<-|Ht]; [exact E|]. specialize (H4 t Ht). lia.
    + cbn [fst snd taken].
      destruct (IH g Hg Hnz') as (H1 & H2 & H3 & H4).
      unfold valueOf, globalsOf in *. repeat split; assumption.
Qed.

Lemma latest_default (d d' : time.Time) (l : list time.Time) :
  l <> [] -> latest d l = latest d' l.
Proof. destruct l; [congruence|reflexivity]. Qed.

Lemma latest_in (d : time.Time) (l : list time.Time) :
  l <> [] -> List.In (latest d l) l.
Proof.
  revert d. induction l as [|t l IH]; intros d Hne; [congruence|].
  rewrite latest_cons. destruct l as [|u l].
  - left. cbn. lia.
  - assert (Hin : List.In (latest t (u :: l)) (u :: l)) by (apply IH; discriminate).
    destruct (Z.max_spec t (latest t (u :: l))) as [[_ ->]|[_ ->]].
    + right. exact Hin.
    + left. reflexivity.
Qed.

Lemma claims_latest (cands : list (time.Time * string)) (g : Globals) :
  (forall c, List.In c cands -> fst c <> time.Zero) ->
  (taken cands (valueOf (claims cands g)) = [] -> globalsOf (claims cands g) = g) /\
  (taken cands (valueOf (claims cands g)) <> [] ->
   latestImageTime (globalsOf (claims cands g))
   = latest time.Zero (taken cands (valueOf (claims cands g)))).
Proof.
  intros Hnz.
  destruct (Z.eq_dec (latestImageTime g) time.Zero) as [Hz|Hs].
  - (* nothing stored yet: the first candidate is taken *)
    destruct cands as [|[parsed raw] cands]; [cbn; split; congruence|].
    rewrite claims_cons. unfold valueOf, globalsOf. cbn [fst snd].
    rewrite claim_run, Hz. cbn [time.IsZero time.Zero Z.eqb orb fst snd taken].
    split; [discriminate|]. intros _.
    assert (Hp : parsed <> time.Zero) by (apply (Hnz (parsed, raw)); left; reflexivity).
    destruct (claims_from_set cands (mkGlobals raw parsed) Hp) as (H1 & H2 & _).
    { intros c Hc. apply Hnz. right. exact Hc. }
    unfold valueOf, globalsOf in *. cbn [latestImageTime] in *.
    rewrite latest_cons, H1.
    assert (parsed <= latest parsed
                        (taken cands (fst (fst (claims cands (mkGlobals raw parsed)))))).
    { rewrite <- H1. exact H2. }
    lia.
  - destruct (claims_from_set cands g Hs Hnz) as (H1 & _ & H3 & _).
    split; [exact H3|]. intros Hne. rewrite H1. apply latest_default. exact Hne.
Qed.

(** C1, as the code has it — a candidate is taken, and the state becomes
    the candidate, if and only if the stored timestamp is unset (zero) or
    the candidate is strictly later than it; otherwise the state is left
    as it was. Once a timestamp is stored, an equal or earlier candidate
    always fails. And over any sequence of candidates none of which is the
    zero instant itself, the stored timestamp is exactly the maximum of
    the candidates taken (the state being untouched when none was). *)
Theorem staleness_gate :
  (forall g parsed raw,
      (valueOf (claim parsed raw g) = true <->
       latestImageTime g = time.Zero \/ latestImageTime g < parsed) /\
      (valueOf (claim parsed raw g) = true ->
       globalsOf (claim parsed raw g) = mkGlobals raw parsed) /\
      (valueOf (claim parsed raw g) = false -> globalsOf (claim parsed raw g) = g) /\
      (latestImageTime g <> time.Zero -> parsed <= latestImageTime g ->
       valueOf (claim parsed raw g) = false /\ globalsOf (claim parsed raw g) = g)) /\
  (forall cands g,
      (forall c, List.In c cands -> fst c <> time.Zero) ->
      (taken cands (valueOf (claims cands g)) = [] -> globalsOf (claims cands g) = g) /\
      (taken cands (valueOf (claims cands g)) <> [] ->
       latestImageTime (globalsOf (claims cands g))
       = latest time.Zero (taken cands (valueOf (claims cands g))) /\
       List.In (latestImageTime (globalsOf (claims cands g)))
               (taken cands (valueOf (claims cands g))) /\
       forall t, List.In t (taken cands (valueOf (claims cands g))) ->
                 t <= latestImageTime (globalsOf (claims cands g)))).
Proof.
  split.
  - intros g parsed raw. rewrite claim_run. unfold valueOf, globalsOf.
    destruct (time.IsZero (latestImageTime g) || time.After parsed (latestImageTime g)) eqn:E;
      cbn [fst snd].
    + apply newer_iff in E. repeat split; try tauto; try discriminate; intros; lia.
    + assert (Hn : ~ (latestImageTime g = time.Zero \/ latestImageTime g < parsed)).
      { intros H. apply newer_iff in H. congruence. }
      repeat split; try tauto; try discriminate.
  - intros cands g Hnz. destruct (claims_latest cands g Hnz) as [H1 H2].
    split; [exact H1|]. intros Hne. specialize (H2 Hne). rewrite H2.
    split; [reflexivity|]. split; [apply latest_in; exact Hne|].
    intros t Ht. apply latest_upper. exact Ht.
Qed.

Lemma staleness_gate_witness :
  let t1 := time.Date 2026 1 11 16 10 0 0 in
  let t0 := time.Date 2026 1 11 16 0 0 0 in
  let t2 := time.Date 2026 1 11 16 20 0 0 in
  let cands := [(t1, "2026-01-11 16:10:00"); (t1, "2026-01-11 16:10:00");
                (t0, "2026-01-11 16:00:00"); (t2, "2026-01-11 16:20:00")]%string in
  valueOf (claims cands initGlobals) = [true; false; false; true] /\
  latestImageTime (globalsOf (claims cands initGlobals)) = latest time.Zero [t1; t2] /\
  latestImageTime (globalsOf (claims cands initGlobals)) = t2.
Proof.
  intros t1 t0 t2 cands.
  destruct staleness_gate as [_ H].
  destruct (H cands initGlobals) as [_ H2].
  - intros c Hc. cbn in Hc.
    destruct Hc as [<-|[<-|[<-|[<-|[]]]]]; vm_compute; discriminate.
  - split; [vm_compute; reflexivity|].
    destruct H2 as (H2 & _); [vm_compute; discriminate|].
    split; [exact H2|vm_compute; reflexivity].
Defined.

(** The two sentences of C1 that the code does not bear out, both through
    the zero Time standing for "unset": an unset state takes the
    candidate "0001-01-01 00:00:00" although it equals what is stored; and
    it then takes the earlier "0000-12-31 23:59:59", after which the
    stored timestamp is not the maximum of the candidates taken. *)
Lemma staleness_gate_counterexample :
  time.Parse "0001-01-01 00:00:00" = Some time.Zero /\
  time.Parse "0000-12-31 23:59:59" = Some (time.Date 0 12 31 23 59 59 0) /\
  time.Zero <= latestImageTime initGlobals /\
  valueOf (claim time.Zero "0001-01-01 00:00:00" initGlobals) = true /\
  let cands := [(time.Zero, "0001-01-01 00:00:00");
                (time.Date 0 12 31 23 59 59 0, "0000-12-31 23:59:59")]%string in
  valueOf (claims cands initGlobals) = [true; true] /\
  latest time.Zero (taken cands (valueOf (claims cands initGlobals))) = time.Zero /\
  latestImageTime (globalsOf (claims cands initGlobals)) < time.Zero.
Proof. vm_compute. repeat split; congruence. Qed.

(** ** One tick *)

Lemma forEach_emit {A : Type} (f : A -> Event) (l : list A) (g : Globals) :
  forEach l (fun a => emit (f a)) g = (tt, g, map f l).
Proof.
  induction l as [|a l IH]; [reflexivity|].
  cbn [forEach]. unfold bind. change (emit (f a) g) with (tt, g, [f a]).
  cbn beta iota. rewrite IH. reflexivity.
Qed.

Lemma outputPath_nonempty (w : World) : String.eqb (outputPath w) "" = false.
Proof.
  unfold outputPath, filepath_Join. destruct (os_TempDir w); reflexivity.
Qed.

Lemma processWallpaper_run (w : World) (t : time.Time) (g : Globals) :
  processWallpaper w t g =
  match os_Create w (outputPath w) with
  | Some _ =>
      (EmptyString, g,
       map (fun c => EvGo (fst c) (snd c)) (gridCoords resolution)
         ++ [EvCreate (outputPath w)])
  | None =>
      (outputPath w, g,
       map (fun c => EvGo (fst c) (snd c)) (gridCoords resolution)
         ++ [EvCreate (outputPath w); EvEncode (outputPath w) (finalImage w t)])
  end.
Proof.
  unfold processWallpaper, outputPath, finalImage. cbv zeta.
  unfold bind at 1. rewrite forEach_emit.
  unfold bind, emit, ret.
  destruct (os_Create w _).
  - reflexivity.
  - destruct (png_Encode w _ _); reflexivity.
Qed.

Lemma doFetch_parsed (w : World) (g : Globals) (raw : string) (parsed : time.Time) :
  latestImage w = inl raw ->
  time.Parse raw = Some parsed ->
  doFetch w g =
  if time.IsZero (latestImageTime g) || time.After parsed (latestImageTime g)
  then (tt, mkGlobals raw parsed,
        [EvLatestImage; EvLock; EvStoreTime parsed; EvStoreDate raw; EvUnlock;
         EvSetTitle ("Date: " ++ raw)] ++ pipelineTrace w parsed)
  else (tt, g, [EvLatestImage; EvLock; EvUnlock; EvSetTitle ("Date: " ++ raw)]).
Proof.
  intros HL HP. unfold doFetch. rewrite HL, HP.
  unfold bind at 1. unfold emit at 1. unfold bind at 1. rewrite claim_run.
  destruct (time.IsZero (latestImageTime g) || time.After parsed (latestImageTime g)).
  - unfold bind at 1. unfold emit at 1. unfold bind at 1.
    rewrite processWallpaper_run. unfold pipelineTrace.
    destruct (os_Create w (outputPath w)).
    + cbn [String.eqb negb]. unfold ret. cbn [app].
      rewrite !app_nil_r. reflexivity.
    + rewrite outputPath_nonempty. cbn [negb]. unfold setWallpaper, bind, emit, ret.
      destruct (wallpaper_SetWallpaper w (outputPath w)); cbn [app];
        rewrite ?app_nil_r, <- ?app_assoc; reflexivity.
  - unfold bind, emit, ret. cbn [app]. reflexivity.
Qed.

Lemma doFetch_unparsed (w : World) (g : Globals) (raw : string) :
  latestImage w = inl raw ->
  time.Parse raw = None ->
  doFetch w g =
  (tt, mkGlobals raw (latestImageTime g),
   [EvLatestImage; EvLock; EvStoreDate raw; EvUnlock; EvSetTitle ("Date: " ++ raw)]).
Proof.
  intros HL HP. unfold doFetch. rewrite HL, HP.
  unfold bind, emit, storeDate. reflexivity.
Qed.

Lemma existsb_map_false {A B : Type} (p : B -> bool) (f : A -> B) (l : list A) :
  (forall a, p (f a) = false) -> existsb p (map f l) = false.
Proof.
  intros H. induction l as [|a l IH]; cbn; [reflexivity|]. rewrite H, IH. reflexivity.
Qed.

Lemma pipelineTrace_no_store (w : World) (t : time.Time) :
  existsb isStore (pipelineTrace w t) = false.
Proof.
  unfold pipelineTrace. rewrite existsb_app, existsb_map_false by reflexivity.
  destruct (os_Create w (outputPath w)); reflexivity.
Qed.

Lemma globalsOf_triple {A : Type} (a : A) (g : Globals) (tr : list Event) :
  globalsOf (a, g, tr) = g.
Proof. reflexivity. Qed.

Lemma traceOf_triple {A : Type} (a : A) (g : Globals) (tr : list Event) :
  traceOf (a, g, tr) = tr.
Proof. reflexivity. Qed.

Lemma ticks_cons (w : World) (ws : list World) (g : Globals) :
  ticks (w :: ws) g =
  (tt, globalsOf (ticks ws (globalsOf (doFetch w g))),
   traceOf (doFetch w g) ++ traceOf (ticks ws (globalsOf (doFetch w g)))).
Proof.
  cbn [ticks]. unfold bind.
  destruct (doFetch w g) as [[u g1] tr1]. unfold globalsOf, traceOf. cbn [fst snd].
  destruct (ticks ws g1) as [[[] g2] tr2]. reflexivity.
Qed.

(** C7, as the code has it — when the metadata source returns a string
    that does not parse as "2006-01-02 15:04:05", [doFetch] shows the raw
    string, keeps the stored [latestImageTime], attempts no claim and runs
    no tile fetch, composition or publication in that tick; it does write
    the raw string into [latestImageDate]. *)
Theorem doFetch_unparsable (w : World) (g : Globals) (raw : string) :
  latestImage w = inl raw ->
  time.Parse raw = None ->
  traceOf (doFetch w g)
  = [EvLatestImage; EvLock; EvStoreDate raw; EvUnlock; EvSetTitle ("Date: " ++ raw)] /\
  latestImageTime (globalsOf (doFetch w g)) = latestImageTime g /\
  latestImageDate (globalsOf (doFetch w g)) = raw /\
  existsb isPipelineEvent (traceOf (doFetch w g)) = false /\
  (forall t, ~ List.In (EvStoreTime t) (traceOf (doFetch w g))).
Proof.
  intros HL HP. rewrite (doFetch_unparsed w g raw HL HP).
  unfold traceOf, globalsOf. cbn [fst snd latestImageTime latestImageDate].
  repeat split.
  intros t Hin. cbn in Hin.
  repeat (destruct Hin as [Hin|Hin]; [discriminate|]). exact Hin.
Qed.

Lemma doFetch_unparsable_witness :
  let g := mkGlobals "2026-01-11 16:10:00" (time.Date 2026 1 11 16 10 0 0) in
  let w := serving "soon" false false in
  latestImageTime (globalsOf (doFetch w g)) = time.Date 2026 1 11 16 10 0 0 /\
  latestImageDate (globalsOf (doFetch w g)) = "soon"%string /\
  existsb isPipelineEvent (traceOf (doFetch w g)) = false.
Proof.
  intros g w.
  destruct (doFetch_unparsable w g "soon") as (_ & H1 & H2 & H3 & _);
    [reflexivity|reflexivity|].
  split; [exact H1|]. split; [exact H2|exact H3].
Defined.

(** Against C7 as stated: the tick of an unparsable string does not leave
    the pair of stored values unchanged, the stored date string is
    replaced by the raw string. *)
Lemma doFetch_unparsable_counterexample :
  let g := mkGlobals "2026-01-11 16:10:00" (time.Date 2026 1 11 16 10 0 0) in
  let w := serving "soon" false false in
  latestImage w = inl "soon"%string /\
  time.Parse "soon" = None /\
  globalsOf (doFetch w g) <> g /\
  latestImageDate (globalsOf (doFetch w g)) = "soon"%string.
Proof.
  intros g w. split; [reflexivity|]. split; [reflexivity|].
  assert (HL : latestImage w = inl "soon"%string) by reflexivity.
  assert (HP : time.Parse "soon" = None) by reflexivity.
  rewrite (doFetch_unparsed w g "soon" HL HP).
  unfold globalsOf. cbn [fst snd latestImageDate]. split; [discriminate|reflexivity].
Qed.

(** ** Publication *)

(** C6, on the code — when the output file cannot be created,
    [processWallpaper] returns the empty path and [doFetch] does not call
    [setWallpaper]; when the file is created and the PNG encoder fails,
    [processWallpaper] still returns the path of the file and [doFetch]
    does call [setWallpaper] on it. *)
Theorem publish_failure (w : World) (g : Globals) (raw : string) (T : time.Time) :
  latestImage w = inl raw ->
  time.Parse raw = Some T ->
  valueOf (claim T raw g) = true ->
  (forall e, os_Create w (outputPath w) = Some e ->
     valueOf (processWallpaper w T (mkGlobals raw T)) = EmptyString /\
     existsb isSink (traceOf (doFetch w g)) = false) /\
  (forall e, os_Create w (outputPath w) = None ->
     png_Encode w (outputPath w) (finalImage w T) = Some e ->
     valueOf (processWallpaper w T (mkGlobals raw T)) = outputPath w /\
     String.eqb (outputPath w) "" = false /\
     List.In (EvSetWallpaper (outputPath w)) (traceOf (doFetch w g)) /\
     existsb isSink (traceOf (doFetch w g)) = true).
Proof.
  intros HL HP Hok.
  rewrite claim_run in Hok. rewrite (doFetch_parsed w g raw T HL HP).
  destruct (time.IsZero (latestImageTime g) || time.After T (latestImageTime g));
    [|discriminate Hok].
  rewrite processWallpaper_run. unfold traceOf, valueOf, pipelineTrace. cbn [fst snd].
  split.
  - intros e He. rewrite He. cbn [fst]. split; [reflexivity|].
    rewrite !existsb_app, existsb_map_false by reflexivity. reflexivity.
  - intros e He _. rewrite He. cbn [fst]. split; [reflexivity|].
    split; [apply outputPath_nonempty|]. split.
    + apply in_or_app. right. apply in_or_app. right. cbn. tauto.
    + rewrite !existsb_app. cbn [existsb isSink orb]. rewrite !orb_true_r. reflexivity.
Qed.

Lemma publish_failure_witness :
  (* the file is created, the encoder fails *)
  let w := serving "2026-01-11 16:10:00" false true in
  outputPath w = "/tmp/earth_wallpaper_full.png"%string /\
  valueOf (processWallpaper w (time.Date 2026 1 11 16 10 0 0)
             (mkGlobals "2026-01-11 16:10:00" (time.Date 2026 1 11 16 10 0 0)))
  = "/tmp/earth_wallpaper_full.png"%string /\
  List.In (EvSetWallpaper "/tmp/earth_wallpaper_full.png")
          (traceOf (doFetch w initGlobals)).
Proof.
  intros w.
  destruct (publish_failure w initGlobals "2026-01-11 16:10:00"
              (time.Date 2026 1 11 16 10 0 0)) as [_ H];
    [reflexivity|reflexivity|reflexivity|].
  destruct (H "write: no space left on device"%string) as (H1 & _ & H3 & _);
    [reflexivity|reflexivity|].
  split; [reflexivity|]. split; [exact H1|exact H3].
Defined.

(** ** Scenarios *)

Example tileURL_scenario :
  tileURL resolution 2 1 (time.Date 2026 1 11 16 10 0 0)
  = "https://anzu.shinshu-u.ac.jp/himawari/img/D531106/4d/550/2026/01/11/161000_2_1.png"%string.
Proof. vm_compute. reflexivity. Qed.

Example calendar_fields :
  let leap := time.Date 2024 2 29 23 59 59 0 in
  let early := time.Date 0 12 31 23 59 59 0 in
  (time.Year leap, time.Month leap, time.Day leap,
   time.Hour leap, time.Minute leap, time.Second leap) = (2024, 2, 29, 23, 59, 59) /\
  (time.Year early, time.Month early, time.Day early,
   time.Hour early, time.Minute early, time.Second early) = (0, 12, 31, 23, 59, 59) /\
  (time.Year time.Zero, time.Month time.Zero, time.Day time.Zero) = (1, 1, 1).
Proof. vm_compute. repeat split. Qed.

Example Parse_tolerates :
  time.Parse "2026-01-11  6:10:00.5" = Some (time.Date 2026 1 11 6 10 0 500000000) /\
  time.Parse "2026-02-30 16:10:00" = None /\
  time.Parse "2026-01-11T16:10:00" = None /\
  time.Parse "2026-01-11 16:10:00Z" = None.
Proof. vm_compute. repeat split. Qed.

(** Scenario A: the first answer of the metadata source is claimed, the 16
    tiles are dispatched, a file of (4*550 + 2*180) pixels a side is
    encoded and handed to the desktop. Scenario B: the same answer again
    is not claimed, and nothing is fetched or written. *)
Example scenario_A_then_B :
  let w := serving "2026-01-11 16:10:00" false false in
  let T := time.Date 2026 1 11 16 10 0 0 in
  globalsOf (doFetch w initGlobals) = mkGlobals "2026-01-11 16:10:00" T /\
  traceOf (doFetch w initGlobals)
  = [EvLatestImage; EvLock; EvStoreTime T; EvStoreDate "2026-01-11 16:10:00"; EvUnlock;
     EvSetTitle "Date: 2026-01-11 16:10:00"]
      ++ map (fun c => EvGo (fst c) (snd c)) (gridCoords 4)
      ++ [EvCreate "/tmp/earth_wallpaper_full.png";
          EvEncode "/tmp/earth_wallpaper_full.png" (finalImage w T);
          EvSetMode; EvSetWallpaper "/tmp/earth_wallpaper_full.png"] /\
  image.Rect_ (finalImage w T)
  = image.mkRectangle (image.Pt 0 0) (image.Pt 2560 2560) /\
  doFetch w (globalsOf (doFetch w initGlobals))
  = (tt, mkGlobals "2026-01-11 16:10:00" T,
     [EvLatestImage; EvLock; EvUnlock; EvSetTitle "Date: 2026-01-11 16:10:00"]).
Proof.
  intros w T.
  assert (HL : latestImage w = inl "2026-01-11 16:10:00"%string) by reflexivity.
  assert (HP : time.Parse "2026-01-11 16:10:00" = Some T) by (vm_compute; reflexivity).
  assert (HC : os_Create w (outputPath w) = None) by reflexivity.
  assert (HO : outputPath w = "/tmp/earth_wallpaper_full.png"%string) by reflexivity.
  assert (HR : image.Rect_ (finalImage w T)
               = image.mkRectangle (image.Pt 0 0) (image.Pt 2560 2560)).
  { unfold finalImage.
    destruct (bordered_size (assemble (fun x y => downloadImage w resolution x y T) resolution)
                2200 2200 border) as [H _]; try (unfold border; lia).
    - unfold assemble. rewrite drawLoop_Rect. reflexivity.
    - exact H. }
  clearbody w.
  rewrite (doFetch_parsed w initGlobals _ _ HL HP).
  replace (time.IsZero (latestImageTime initGlobals)
           || time.After T (latestImageTime initGlobals)) with true by reflexivity.
  unfold globalsOf, traceOf. cbn [fst snd].
  split; [reflexivity|]. split.
  - unfold pipelineTrace. rewrite HC, HO. reflexivity.
  - split; [exact HR|].
    rewrite (doFetch_parsed w _ _ _ HL HP). cbn [latestImageTime].
    replace (time.IsZero T || time.After T T) with false by (vm_compute; reflexivity).
    reflexivity.
Qed.

(* ===================================================================== *)
(** * Further properties of the program *)

(** ** Ticks *)

Lemma doFetch_error (w : World) (g : Globals) (e : error) :
  latestImage w = inr e ->
  doFetch w g = (tt, g, [EvLatestImage; EvSetTitle "Date: Error fetching"]).
Proof.
  intros HL. unfold doFetch. rewrite HL. unfold bind, emit. reflexivity.
Qed.

(** The three ways a tick can go, and the fourth. *)
Lemma doFetch_shape (w : World) (g : Globals) :
  doFetch w g =
  match latestImage w with
  | inr _ => (tt, g, [EvLatestImage; EvSetTitle "Date: Error fetching"])
  | inl raw =>
      match time.Parse raw with
      | None =>
          (tt, mkGlobals raw (latestImageTime g),
           [EvLatestImage; EvLock; EvStoreDate raw; EvUnlock;
            EvSetTitle ("Date: " ++ raw)])
      | Some parsed =>
          if time.IsZero (latestImageTime g) || time.After parsed (latestImageTime g)
          then (tt, mkGlobals raw parsed,
                [EvLatestImage; EvLock; EvStoreTime parsed; EvStoreDate raw; EvUnlock;
                 EvSetTitle ("Date: " ++ raw)] ++ pipelineTrace w parsed)
          else (tt, g, [EvLatestImage; EvLock; EvUnlock; EvSetTitle ("Date: " ++ raw)])
      end
  end.
Proof.
  destruct (latestImage w) as [raw|e] eqn:HL; [|apply (doFetch_error w g e HL)].
  destruct (time.Parse raw) as [parsed|] eqn:HP.
  - apply doFetch_parsed; assumption.
  - apply doFetch_unparsed; assumption.
Qed.

Lemma doFetch_keeps_later (w : World) (g : Globals) :
  0 < latestImageTime g ->
  latestImageTime g <= latestImageTime (globalsOf (doFetch w g)).
Proof.
  intros Hpos. rewrite doFetch_shape. unfold globalsOf.
  destruct (latestImage w) as [raw|e]; [|cbn; lia].
  destruct (time.Parse raw) as [parsed|]; [|cbn; lia].
  destruct (time.IsZero (latestImageTime g) || time.After parsed (latestImageTime g)) eqn:E;
    [|cbn; lia].
  apply newer_iff in E. unfold time.Zero in E. cbn. lia.
Qed.

(** ** Claim and pipeline *)

Lemma store_in_trace (e : Event) (tr : list Event) :
  List.In e tr -> isStore e = true -> existsb isStore tr = true.
Proof.
  intros Hin He. apply existsb_exists. exists e. split; assumption.
Qed.

(** With a timestamp [T] later than the zero Time, and a stored timestamp
    at [T] or later: a tick keeps it so and does not store [T]. *)
Lemma doFetch_after (T : time.Time) (w : World) (g : Globals) :
  0 < T -> T <= latestImageTime g ->
  T <= latestImageTime (globalsOf (doFetch w g)) /\
  ~ List.In (EvStoreTime T) (traceOf (doFetch w g)).
Proof.
  intros HT Hg. rewrite doFetch_shape. unfold globalsOf, traceOf.
  destruct (latestImage w) as [raw|e].
  2:{ cbn. split; [exact Hg|]. intros [H|[H|[]]]; discriminate. }
  destruct (time.Parse raw) as [parsed|].
  2:{ cbn. split; [exact Hg|].
      intros H. repeat (destruct H as [H|H]; [discriminate|]). exact H. }
  destruct (time.IsZero (latestImageTime g) || time.After parsed (latestImageTime g)) eqn:E.
  - apply newer_iff in E. unfold time.Zero in E. cbn [fst snd latestImageTime].
    split; [lia|]. intros H. apply in_app_or in H. destruct H as [H|H].
    + cbn in H. repeat (destruct H as [H|H]; [try discriminate|]); [|exact H].
      injection H as H. lia.
    + pose proof (store_in_trace _ _ H eq_refl) as Hs.
      rewrite pipelineTrace_no_store in Hs. discriminate.
  - cbn. split; [exact Hg|].
    intros H. repeat (destruct H as [H|H]; [discriminate|]). exact H.
Qed.

Lemma ticks_after (T : time.Time) (ws : list World) (g : Globals) :
  0 < T -> T <= latestImageTime g ->
  T <= latestImageTime (globalsOf (ticks ws g)) /\
  ~ List.In (EvStoreTime T) (traceOf (ticks ws g)).
Proof.
  intros HT. revert g. induction ws as [|w ws IH]; intros g Hg.
  - cbn. split; [exact Hg|]. intros [].
  - rewrite ticks_cons. unfold globalsOf at 1, traceOf at 1. cbn [fst snd].
    destruct (doFetch_after T w g HT Hg) as [H1 H2].
    destruct (IH _ H1) as [H3 H4].
    split; [exact H3|]. intros H. apply in_app_or in H. tauto.
Qed.

(** A poll of a timestamp that is not later than the stored one, itself
    later than the zero Time, is not claimed. *)
Lemma doFetch_not_later (w : World) (g : Globals) (raw : string) (T : time.Time) :
  latestImage w = inl raw ->
  time.Parse raw = Some T ->
  0 < latestImageTime g -> T <= latestImageTime g ->
  doFetch w g = (tt, g, [EvLatestImage; EvLock; EvUnlock; EvSetTitle ("Date: " ++ raw)]).
Proof.
  intros HL HP Hpos Hle. rewrite (doFetch_parsed w g raw T HL HP).
  destruct (time.IsZero (latestImageTime g) || time.After T (latestImageTime g)) eqn:E;
    [|reflexivity].
  apply newer_iff in E. unfold time.Zero in E. lia.
Qed.

Lemma doFetch_claimed (w : World) (g : Globals) (raw : string) (T : time.Time) :
  latestImage w = inl raw ->
  time.Parse raw = Some T ->
  time.IsZero (latestImageTime g) || time.After T (latestImageTime g) = true ->
  globalsOf (doFetch w g) = mkGlobals raw T /\
  existsb isPipelineEvent (traceOf (doFetch w g)) = true.
Proof.
  intros HL HP E. rewrite (doFetch_parsed w g raw T HL HP), E.
  unfold globalsOf, traceOf. cbn [fst snd]. split; [reflexivity|].
  rewrite existsb_app. unfold pipelineTrace. rewrite existsb_app.
  cbn [existsb isPipelineEvent orb]. rewrite !orb_true_r. reflexivity.
Qed.

(** C9, as the code has it — a successful claim stores the candidate
    before any tile is fetched and before composition and publication,
    and nothing after it in the tick writes the stored values again,
    whatever becomes of the pipeline. Hence, for a timestamp [T] later
    than the zero Time, however the pipeline for [T] ended and whatever
    the polls in between return, the stored timestamp stays at [T] or
    later, every later poll that returns [T] again is rejected as not
    newer, leaves the state as it is and runs no pipeline, and [T] is
    never stored a second time: [T] is never retried. *)
Theorem claim_stands (w : World) (g : Globals) (raw : string) (T : time.Time) :
  latestImage w = inl raw ->
  time.Parse raw = Some T ->
  valueOf (claim T raw g) = true ->
  (exists before,
      traceOf (doFetch w g) = before ++ pipelineTrace w T /\
      List.In (EvStoreTime T) before /\
      existsb isPipelineEvent before = false /\
      existsb isStore (pipelineTrace w T) = false) /\
  globalsOf (doFetch w g) = mkGlobals raw T /\
  (0 < T ->
   forall ws : list World,
     T <= latestImageTime (globalsOf (ticks ws (globalsOf (doFetch w g)))) /\
     ~ List.In (EvStoreTime T) (traceOf (ticks ws (globalsOf (doFetch w g)))) /\
     forall w' raw',
       latestImage w' = inl raw' ->
       time.Parse raw' = Some T ->
       valueOf (claim T raw' (globalsOf (ticks ws (globalsOf (doFetch w g))))) = false /\
       globalsOf (doFetch w' (globalsOf (ticks ws (globalsOf (doFetch w g)))))
       = globalsOf (ticks ws (globalsOf (doFetch w g))) /\
       dispatched (traceOf (doFetch w' (globalsOf (ticks ws (globalsOf (doFetch w g))))))
       = 0%nat /\
       existsb isPipelineEvent
               (traceOf (doFetch w' (globalsOf (ticks ws (globalsOf (doFetch w g))))))
       = false).
Proof.
  intros HL HP Hok.
  rewrite claim_run in Hok.
  assert (E : time.IsZero (latestImageTime g) || time.After T (latestImageTime g) = true).
  { destruct (time.IsZero (latestImageTime g) || time.After T (latestImageTime g));
      [reflexivity|discriminate Hok]. }
  assert (G1 : globalsOf (doFetch w g) = mkGlobals raw T).
  { rewrite (doFetch_parsed w g raw T HL HP), E. reflexivity. }
  rewrite G1.
  split; [|split; [reflexivity|]].
  - rewrite (doFetch_parsed w g raw T HL HP), E.
    unfold traceOf. cbn [fst snd].
    eexists. split; [reflexivity|]. split; [cbn; tauto|].
    split; [reflexivity|apply pipelineTrace_no_store].
  - clear E G1 Hok. intros HT ws.
    destruct (ticks_after T ws (mkGlobals raw T) HT) as [Hle Hno]; [cbn; lia|].
    split; [exact Hle|]. split; [exact Hno|].
    intros w' raw' HL' HP'.
    assert (Hpos : 0 < latestImageTime (globalsOf (ticks ws (mkGlobals raw T)))) by lia.
    rewrite (doFetch_not_later w' _ raw' T HL' HP' Hpos Hle), claim_run.
    destruct (time.IsZero (latestImageTime (globalsOf (ticks ws (mkGlobals raw T))))
              || time.After T (latestImageTime (globalsOf (ticks ws (mkGlobals raw T)))))
      eqn:E.
    + apply newer_iff in E. unfold time.Zero in E. lia.
    + unfold valueOf, globalsOf at 1, traceOf. cbn [fst snd].
      repeat split.
Qed.

Lemma claim_stands_witness :
  (* the file cannot be created: the pipeline for 16:10 fails after the
     claim; the source then answers 16:20, fails, answers garbage and an
     older date, and then 16:10 again *)
  let w := serving "2026-01-11 16:10:00" true false in
  let T := time.Date 2026 1 11 16 10 0 0 in
  let ws := [serving "2026-01-11 16:20:00" false false; offline;
             serving "soon" false false; serving "2026-01-11 16:00:00" false false] in
  globalsOf (doFetch w initGlobals) = mkGlobals "2026-01-11 16:10:00" T /\
  T <= latestImageTime (globalsOf (ticks ws (globalsOf (doFetch w initGlobals)))) /\
  existsb isPipelineEvent
          (traceOf (doFetch w (globalsOf (ticks ws (globalsOf (doFetch w initGlobals))))))
  = false.
Proof.
  intros w T ws.
  destruct (claim_stands w initGlobals "2026-01-11 16:10:00" T)
    as (_ & HG & Hlater); [reflexivity|reflexivity|reflexivity|].
  split; [exact HG|].
  destruct (Hlater ltac:(vm_compute; reflexivity) ws) as (Hle & _ & Hpoll).
  split; [exact Hle|].
  destruct (Hpoll w "2026-01-11 16:10:00"%string) as (_ & _ & _ & H);
    [reflexivity|reflexivity|exact H].
Defined.

(** Against C9 as stated: the zero Time also stands for "nothing stored".
    The timestamp "0001-01-01 00:00:00" is therefore claimed, and its
    pipeline run, at every poll that returns it. And a timestamp before
    the zero Time, "0000-12-31 23:59:59", is claimed and run again once a
    poll of "0001-01-01 00:00:00" has come in between: that poll is later,
    is claimed, and leaves the state unset. *)
Lemma claim_stands_counterexample :
  let wZ := serving "0001-01-01 00:00:00" true false in
  let wT := serving "0000-12-31 23:59:59" true false in
  let T := time.Date 0 12 31 23 59 59 0 in
  (latestImage wZ = inl "0001-01-01 00:00:00"%string /\
   time.Parse "0001-01-01 00:00:00" = Some time.Zero /\
   valueOf (claim time.Zero "0001-01-01 00:00:00" initGlobals) = true /\
   valueOf (processWallpaper wZ time.Zero (globalsOf (doFetch wZ initGlobals)))
   = EmptyString /\
   valueOf (claim time.Zero "0001-01-01 00:00:00" (globalsOf (doFetch wZ initGlobals)))
   = true /\
   existsb isPipelineEvent (traceOf (doFetch wZ (globalsOf (doFetch wZ initGlobals))))
   = true) /\
  (latestImage wT = inl "0000-12-31 23:59:59"%string /\
   time.Parse "0000-12-31 23:59:59" = Some T /\
   T <> time.Zero /\
   valueOf (claim T "0000-12-31 23:59:59" initGlobals) = true /\
   latestImageTime (globalsOf (ticks [wT; wZ] initGlobals)) = time.Zero /\
   valueOf (claim T "0000-12-31 23:59:59" (globalsOf (ticks [wT; wZ] initGlobals)))
   = true /\
   existsb isPipelineEvent
           (traceOf (doFetch wT (globalsOf (ticks [wT; wZ] initGlobals)))) = true).
Proof.
  intros wZ wT T.
  assert (HLZ : latestImage wZ = inl "0001-01-01 00:00:00"%string) by reflexivity.
  assert (HPZ : time.Parse "0001-01-01 00:00:00" = Some time.Zero)
    by (vm_compute; reflexivity).
  assert (HCZ : os_Create wZ (outputPath wZ) = Some "permission denied"%string)
    by reflexivity.
  assert (HLT : latestImage wT = inl "0000-12-31 23:59:59"%string) by reflexivity.
  assert (HPT : time.Parse "0000-12-31 23:59:59" = Some T) by (vm_compute; reflexivity).
  assert (HTZ : T <> time.Zero) by (vm_compute; discriminate).
  assert (E0 : forall t, time.IsZero time.Zero || time.After t time.Zero = true)
    by reflexivity.
  assert (E1 : time.IsZero T || time.After time.Zero T = true) by (vm_compute; reflexivity).
  clearbody wZ wT T.
  destruct (doFetch_claimed wZ initGlobals _ _ HLZ HPZ (E0 _)) as [GZ1 _].
  split.
  - split; [exact HLZ|]. split; [exact HPZ|].
    rewrite GZ1, !claim_run, processWallpaper_run, HCZ.
    cbn [latestImageTime initGlobals]. rewrite !E0.
    unfold valueOf. cbn [fst].
    split; [reflexivity|]. split; [reflexivity|]. split; [reflexivity|].
    apply (doFetch_claimed wZ _ _ _ HLZ HPZ). apply E0.
  - split; [exact HLT|]. split; [exact HPT|]. split; [exact HTZ|].
    destruct (doFetch_claimed wT initGlobals _ _ HLT HPT (E0 _)) as [GT1 _].
    assert (G2 : globalsOf (ticks [wT; wZ] initGlobals)
                 = mkGlobals "0001-01-01 00:00:00" time.Zero).
    { rewrite !ticks_cons, !globalsOf_triple. cbn [ticks]. unfold ret.
      rewrite globalsOf_triple, GT1.
      apply (doFetch_claimed wZ _ _ _ HLZ HPZ). exact E1. }
    rewrite G2, !claim_run. cbn [latestImageTime initGlobals]. rewrite !E0.
    unfold valueOf. cbn [fst].
    split; [reflexivity|]. split; [reflexivity|]. split; [reflexivity|].
    apply (doFetch_claimed wT _ _ _ HLT HPT). apply E0.
Qed.

(** X1 — the stored timestamp never goes back: once a timestamp later than
    the zero Time is stored, no sequence of ticks, whatever the metadata
    source answers and whatever fails, leaves an earlier one (or none) in
    [latestImageTime]. *)
Theorem ticks_never_regress (ws : list World) (g : Globals) :
  0 < latestImageTime g ->
  latestImageTime g <= latestImageTime (globalsOf (ticks ws g)).
Proof.
  revert g. induction ws as [|w ws IH]; intros g Hpos; [cbn; lia|].
  rewrite ticks_cons. unfold globalsOf at 1. cbn [fst snd].
  pose proof (doFetch_keeps_later w g Hpos) as H1.
  specialize (IH (globalsOf (doFetch w g))).
  lia.
Qed.

Lemma ticks_never_regress_witness :
  (* 16:10 is stored; the source answers 16:00, then garbage, then fails,
     then answers 16:20 *)
  let g := mkGlobals "2026-01-11 16:10:00" (time.Date 2026 1 11 16 10 0 0) in
  let ws := [serving "2026-01-11 16:00:00" false false; serving "soon" false false;
             offline; serving "2026-01-11 16:20:00" true false] in
  time.Date 2026 1 11 16 10 0 0 <= latestImageTime (globalsOf (ticks ws g)).
Proof.
  intros g ws. apply (ticks_never_regress ws g). vm_compute. reflexivity.
Defined.

Lemma lockRun_app (a b : list Event) (held : bool) :
  lockRun held (a ++ b) =
  match lockRun held a with
  | Some held' => lockRun held' b
  | None => None
  end.
Proof.
  revert held. induction a as [|e a IH]; intros held; [reflexivity|].
  destruct e, held; cbn [app lockRun]; try reflexivity; apply IH.
Qed.

Lemma lockRun_pipeline (w : World) (t : time.Time) :
  lockRun false (pipelineTrace w t) = Some false.
Proof.
  unfold pipelineTrace. rewrite lockRun_app.
  assert (H : forall l : list (Z * Z),
             lockRun false (map (fun c => EvGo (fst c) (snd c)) l) = Some false).
  { induction l as [|c l IH]; [reflexivity|exact IH]. }
  rewrite H. destruct (os_Create w (outputPath w)); reflexivity.
Qed.

Lemma lockRun_doFetch (w : World) (g : Globals) :
  lockRun false (traceOf (doFetch w g)) = Some false.
Proof.
  rewrite doFetch_shape. unfold traceOf.
  destruct (latestImage w) as [raw|e]; [|reflexivity].
  destruct (time.Parse raw) as [parsed|]; [|reflexivity].
  destruct (time.IsZero (latestImageTime g) || time.After parsed (latestImageTime g));
    [|reflexivity].
  cbn [snd]. rewrite lockRun_app. cbn [lockRun]. apply lockRun_pipeline.
Qed.

(** X2 — the mutex is used in short critical sections only: along every
    sequence of ticks it is locked and unlocked in turn and free at the
    end, the two package-level variables are written only while it is
    held, and no request, menu update, tile goroutine, file operation or
    call to the desktop happens while it is held. *)
Theorem ticks_lock_discipline (ws : list World) (g : Globals) :
  lockRun false (traceOf (ticks ws g)) = Some false.
Proof.
  revert g. induction ws as [|w ws IH]; intros g; [reflexivity|].
  rewrite ticks_cons. unfold traceOf at 1. cbn [snd].
  rewrite lockRun_app, lockRun_doFetch. apply IH.
Qed.

(** X3 — when the metadata request fails, or its body does not decode,
    the tick shows "Date: Error fetching" and does nothing else: the
    stored values are untouched, the mutex is not taken, and nothing is
    fetched or written. *)
Theorem doFetch_metadata_failure (w : World) (g : Globals) :
  (exists e, http_Get w latestURL = inr e) \/
  (exists resp e, http_Get w latestURL = inl resp /\ json_Decode w (Body resp) = inr e) ->
  doFetch w g = (tt, g, [EvLatestImage; EvSetTitle "Date: Error fetching"]).
Proof.
  intros H.
  assert (HL : exists e, latestImage w = inr e).
  { unfold latestImage. fold latestURL.
    destruct H as [[e ->]|(resp & e & -> & ->)]; eauto. }
  destruct HL as [e HL]. apply (doFetch_error w g e HL).
Qed.

Lemma doFetch_metadata_failure_witness :
  let g := mkGlobals "2026-01-11 16:10:00" (time.Date 2026 1 11 16 10 0 0) in
  doFetch offline g = (tt, g, [EvLatestImage; EvSetTitle "Date: Error fetching"]).
Proof.
  intros g. apply doFetch_metadata_failure. left. eexists. reflexivity.
Defined.

Lemma dispatched_pipeline (w : World) (t : time.Time) :
  dispatched (pipelineTrace w t) = 16%nat.
Proof.
  unfold dispatched, pipelineTrace. rewrite filter_app, length_app.
  assert (H : forall l : list (Z * Z),
             filter isGo (map (fun c => EvGo (fst c) (snd c)) l)
             = map (fun c => EvGo (fst c) (snd c)) l).
  { induction l as [|c l IH]; cbn; [reflexivity|]. rewrite IH. reflexivity. }
  rewrite H, length_map.
  destruct (os_Create w (outputPath w)); reflexivity.
Qed.

(** X4 — a tick dispatches the 16 tile fetches exactly when the answer of
    the metadata source parses and passes the gate, and none otherwise;
    and it calls the desktop exactly when, besides, the output file could
    be created, the calls being [SetMode] then [SetWallpaper] on the
    output path as the last two actions of the tick. *)
Theorem doFetch_outcome (w : World) (g : Globals) :
  dispatched (traceOf (doFetch w g)) = (if claimed w g then 16 else 0)%nat /\
  existsb isSink (traceOf (doFetch w g))
  = claimed w g && (match os_Create w (outputPath w) with None => true | Some _ => false end) /\
  (existsb isSink (traceOf (doFetch w g)) = true ->
   exists before,
     traceOf (doFetch w g) = before ++ [EvSetMode; EvSetWallpaper (outputPath w)] /\
     existsb isSink before = false).
Proof.
  rewrite doFetch_shape. unfold claimed, traceOf.
  destruct (latestImage w) as [raw|e]; [|repeat split; discriminate].
  destruct (time.Parse raw) as [parsed|]; [|repeat split; discriminate].
  destruct (time.IsZero (latestImageTime g) || time.After parsed (latestImageTime g));
    [|repeat split; discriminate].
  cbn [snd andb].
  assert (HG : forall l : list (Z * Z),
             existsb isSink (map (fun c => EvGo (fst c) (snd c)) l) = false).
  { intros l. apply existsb_map_false. reflexivity. }
  split; [|split].
  - unfold dispatched. rewrite filter_app, length_app.
    fold (dispatched (pipelineTrace w parsed)). rewrite dispatched_pipeline. reflexivity.
  - rewrite existsb_app. unfold pipelineTrace. rewrite existsb_app, HG.
    destruct (os_Create w (outputPath w)); reflexivity.
  - unfold pipelineTrace. destruct (os_Create w (outputPath w)) eqn:HC.
    + rewrite !existsb_app, HG. cbn. discriminate.
    + intros _.
      exists ([EvLatestImage; EvLock; EvStoreTime parsed; EvStoreDate raw; EvUnlock;
               EvSetTitle ("Date: " ++ raw)]
                ++ map (fun c => EvGo (fst c) (snd c)) (gridCoords resolution)
                ++ [EvCreate (outputPath w); EvEncode (outputPath w) (finalImage w parsed)]).
      split.
      * rewrite <- !app_assoc. reflexivity.
      * rewrite !existsb_app, HG. reflexivity.
Qed.

Lemma titles_pipeline (w : World) (t : time.Time) : titles (pipelineTrace w t) = [].
Proof.
  unfold titles, pipelineTrace. rewrite flat_map_app.
  assert (H : forall l : list (Z * Z),
             flat_map (fun e => match e with EvSetTitle s => [s] | _ => [] end)
                      (map (fun c => EvGo (fst c) (snd c)) l) = []).
  { induction l as [|c l IH]; [reflexivity|exact IH]. }
  rewrite H. destruct (os_Create w (outputPath w)); reflexivity.
Qed.

(** X5 — every tick sets the title of the date item exactly once: to
    "Date: Error fetching" when the metadata could not be had, and
    otherwise to "Date: " followed by the raw string of the metadata
    source, whether or not that string parses and whether or not it is
    newer than what is stored. *)
Theorem doFetch_title (w : World) (g : Globals) :
  titles (traceOf (doFetch w g))
  = [match latestImage w with
     | inr _ => "Date: Error fetching"
     | inl raw => "Date: " ++ raw
     end]%string.
Proof.
  rewrite doFetch_shape. unfold traceOf.
  destruct (latestImage w) as [raw|e]; [|reflexivity].
  destruct (time.Parse raw) as [parsed|]; [|reflexivity].
  destruct (time.IsZero (latestImageTime g) || time.After parsed (latestImageTime g));
    [|reflexivity].
  cbn [snd]. unfold titles. rewrite flat_map_app. fold (titles (pipelineTrace w parsed)).
  rewrite titles_pipeline. reflexivity.
Qed.

(** ** The published image *)

Lemma bordered_At (canvas : image.RGBA) (w h b px py : Z) :
  0 <= w -> 0 <= h -> 0 <= b ->
  w + 2 * b <= 1000000000 -> h + 2 * b <= 1000000000 ->
  image.Rect_ canvas = image.Rect 0 0 w h ->
  0 <= px < w + 2 * b -> 0 <= py < h + 2 * b ->
  image.RGBAAt (bordered b canvas) px py =
  if (b <=? px) && (px <? b + w) && (b <=? py) && (py <? b + h)
  then image.RGBAAt canvas (px - b) (py - b)
  else color.Black.
Proof.
  intros Hw Hh Hb Hwb Hhb HR Hx Hy.
  rewrite Rect_ordered in HR by assumption.
  unfold bordered. cbn [image.Bounds image.ofRGBA]. rewrite HR.
  unfold image.Dx, image.Dy. cbn [image.Min image.Max image.X image.Y].
  rewrite !Z.sub_0_r.
  rewrite Draw_At. unfold draw.written at 1. rewrite Draw_Rect.
  unfold image.NewRGBA at 1. cbn [image.Rect_ image.Bounds image.ofRGBA].
  rewrite HR. unfold draw.srcPoint.
  rewrite !(Rect_ordered b b) by lia. rewrite (Rect_ordered 0 0) by lia.
  cbn [image.Min image.Max image.X image.Y].
  unfold image.In at 1 2 3. cbn [image.Min image.Max image.X image.Y].
  rewrite !Z.add_0_l.
  replace ((0 <=? px) && (px <? w + b * 2) && (0 <=? py) && (py <? h + b * 2)) with true
    by (symmetry; rewrite !andb_true_iff, !Z.leb_le, !Z.ltb_lt; lia).
  destruct ((b <=? px) && (px <? b + w) && (b <=? py) && (py <? b + h)) eqn:Ein.
  - rewrite !andb_true_iff, !Z.leb_le, !Z.ltb_lt in Ein.
    replace ((0 <=? px - b) && (px - b <? w) && (0 <=? py - b) && (py - b <? h)) with true
      by (symmetry; rewrite !andb_true_iff, !Z.leb_le, !Z.ltb_lt; lia).
    reflexivity.
  - cbn [andb].
    rewrite Draw_At. unfold draw.written. unfold image.NewRGBA.
    cbn [image.Rect_ image.Bounds image.Uniform]. unfold draw.srcPoint.
    cbn [image.Min image.Max image.X image.Y image.At].
    unfold image.In. cbn [image.Min image.Max image.X image.Y].
    rewrite !Z.add_0_l, !Z.sub_0_r.
    replace ((0 <=? px) && (px <? w + b * 2) && (0 <=? py) && (py <? h + b * 2)) with true
      by (symmetry; rewrite !andb_true_iff, !Z.leb_le, !Z.ltb_lt; lia).
    replace ((-1000000000 <=? px) && (px <? 1000000000)
             && (-1000000000 <=? py) && (py <? 1000000000)) with true
      by (symmetry; rewrite !andb_true_iff, !Z.leb_le, !Z.ltb_lt; lia).
    reflexivity.
Qed.

Lemma finalImage_At (w : World) (t : time.Time) (px py : Z) :
  0 <= px < 2560 -> 0 <= py < 2560 ->
  image.RGBAAt (finalImage w t) px py =
  if (180 <=? px) && (px <? 2380) && (180 <=? py) && (py <? 2380)
  then image.RGBAAt (assemble (fun x y => downloadImage w resolution x y t) resolution)
                    (px - 180) (py - 180)
  else color.Black.
Proof.
  intros Hx Hy. unfold finalImage.
  apply (bordered_At _ 2200 2200 180); try lia.
  unfold assemble. rewrite drawLoop_Rect. reflexivity.
Qed.

(** X6 — the image that [processWallpaper] encodes, end to end: it is
    2560 by 2560; its 180 outer pixels on every side are black; and the
    pixel at (180 + i*550 + u, 180 + j*550 + v), for a cell (i, j) of the
    grid and u, v below 550, is pixel (u, v) of the image that
    [downloadImage] returned for (i, j), the zero colour where that image
    has no such pixel, and hence wherever the tile is the blank
    placeholder. *)
Theorem finalImage_content (w : World) (t : time.Time) :
  image.Rect_ (finalImage w t)
  = image.mkRectangle (image.Pt 0 0) (image.Pt 2560 2560) /\
  (forall px py,
      0 <= px < 2560 -> 0 <= py < 2560 ->
      ~ (180 <= px < 2380 /\ 180 <= py < 2380) ->
      image.RGBAAt (finalImage w t) px py = color.Black) /\
  (forall i j u v,
      0 <= i < 4 -> 0 <= j < 4 -> 0 <= u < 550 -> 0 <= v < 550 ->
      image.RGBAAt (finalImage w t) (180 + i * 550 + u) (180 + j * 550 + v) =
      (if image.In (image.Pt u v) (image.Bounds (downloadImage w resolution i j t))
       then image.At (downloadImage w resolution i j t) u v
       else color.Zero) /\
      (downloadImage w resolution i j t = blankTile ->
       image.RGBAAt (finalImage w t) (180 + i * 550 + u) (180 + j * 550 + v) = color.Zero)).
Proof.
  split; [|split].
  - unfold finalImage.
    destruct (bordered_size
                (assemble (fun x y => downloadImage w resolution x y t) resolution)
                2200 2200 border) as [H _]; try (unfold border; lia).
    + unfold assemble. rewrite drawLoop_Rect. reflexivity.
    + exact H.
  - intros px py Hx Hy Hout. rewrite finalImage_At by assumption.
    destruct ((180 <=? px) && (px <? 2380) && (180 <=? py) && (py <? 2380)) eqn:E;
      [|reflexivity].
    rewrite !andb_true_iff, !Z.leb_le, !Z.ltb_lt in E. lia.
  - intros i j u v Hi Hj Hu Hv.
    assert (HA : image.RGBAAt (finalImage w t) (180 + i * 550 + u) (180 + j * 550 + v) =
                 if image.In (image.Pt u v) (image.Bounds (downloadImage w resolution i j t))
                 then image.At (downloadImage w resolution i j t) u v
                 else color.Zero).
    { rewrite finalImage_At by lia.
      replace ((180 <=? 180 + i * 550 + u) && (180 + i * 550 + u <? 2380)
               && (180 <=? 180 + j * 550 + v) && (180 + j * 550 + v <? 2380)) with true
        by (symmetry; rewrite !andb_true_iff, !Z.leb_le, !Z.ltb_lt; lia).
      rewrite (assemble_pixel _ resolution i j) by (unfold resolution, tileSize; lia).
      unfold tileSize.
      replace (180 + i * 550 + u - 180 - i * 550) with u by lia.
      replace (180 + j * 550 + v - 180 - j * 550) with v by lia.
      reflexivity. }
    split; [exact HA|].
    intros Hb. rewrite HA, Hb. clear.
    destruct (image.In _ _); [|reflexivity].
    unfold blankTile. cbn [image.At image.ofRGBA]. unfold image.RGBAAt.
    destruct (image.In _ _); reflexivity.
Qed.

Lemma finalImage_content_witness :
  let t := time.Date 2026 1 11 16 10 0 0 in
  let w := tileDown "2026-01-11 16:10:00" t in
  image.RGBAAt (finalImage w t) 100 2000 = color.Black /\
  image.RGBAAt (finalImage w t) (180 + 2 * 550 + 7) (180 + 1 * 550 + 9) = color.Zero /\
  image.RGBAAt (finalImage w t) (180 + 3 * 550 + 7) (180 + 0 * 550 + 9)
  = color.mkRGBA 10 20 200 255.
Proof.
  intros t w. destruct (finalImage_content w t) as (_ & Hborder & Hcell).
  split; [apply Hborder; lia|]. split.
  - apply (Hcell 2 1 7 9); try lia. vm_compute. reflexivity.
  - destruct (Hcell 3 0 7 9) as [H _]; try lia. rewrite H. vm_compute. reflexivity.
Defined.

(** ** The goroutines: wait group and channel *)

Lemma results_within_grid (gridSize : Z) (n : nat) :
  (n <= List.length (gridCoords gridSize))%nat -> Z.of_nat n <= gridSize * gridSize.
Proof.
  rewrite length_gridCoords. intros H.
  destruct (Z.le_gt_cases gridSize 0) as [Hn|Hp].
  - replace (Z.to_nat gridSize) with 0%nat in H by lia. nia.
  - nia.
Qed.

(** X7 — in every state that the goroutines of an assembly can reach,
    under any schedule and for any grid size: the wait-group counter is
    the number of launched goroutines that have not yet called [Done], so
    it is never negative; the channel never holds more results than its
    capacity [gridSize*gridSize], and a goroutine that holds its image can
    always send it at once, whether or not anything has been received yet;
    and once the channel is closed no goroutine is left that could still
    send on it. *)
Theorem goroutines_safe (fetch : Z -> Z -> image.Image) (gridSize : Z)
        (sched : list Action) (s : Asm) :
  run fetch gridSize sched (initAsm gridSize) = Some s ->
  wg s = Z.of_nat (List.length (started s) + List.length (fetched s) + List.length (sent s)) /\
  0 <= wg s /\
  Z.of_nat (List.length (results s)) <= gridSize * gridSize /\
  (forall r, List.In r (fetched s) ->
             exists s', step fetch gridSize (Send (coordOf r)) s = Some s') /\
  (closer s = Closed -> started s = [] /\ fetched s = [] /\ sent s = []).
Proof.
  intros Hrun. destruct (Inv_run fetch gridSize sched s Hrun) as [arrived I].
  destruct I.
  assert (Hlen : (List.length (todo s) + List.length (started s) + List.length (fetched s)
                  + List.length (results s) + List.length arrived
                  = List.length (gridCoords gridSize))%nat).
  { apply Permutation_length in inv_coords0.
    rewrite !length_app, !length_map in inv_coords0. lia. }
  split; [exact inv_wg0|]. split; [lia|]. split.
  { apply results_within_grid. lia. }
  split.
  - intros r Hr. cbn [step].
    destruct (extract (isAt (coordOf r)) (fetched s)) as [[r' rest]|] eqn:Ex.
    + assert (Hlt : Z.of_nat (List.length (results s)) < gridSize * gridSize).
      { apply in_split in Hr. destruct Hr as (l1 & l2 & Hr).
        assert (S (List.length (results s)) <= List.length (gridCoords gridSize))%nat.
        { rewrite Hr, length_app in Hlen. cbn [List.length] in Hlen. lia. }
        pose proof (results_within_grid gridSize _ H). lia. }
      destruct (Z.ltb_spec (Z.of_nat (List.length (results s))) (gridSize * gridSize));
        [eauto|lia].
    + exfalso. clear - Hr Ex.
      induction (fetched s) as [|a l IH]; [destruct Hr|].
      cbn in Ex. destruct (isAt (coordOf r) a) eqn:Ea; [discriminate|].
      destruct Hr as [->|Hr].
      * unfold isAt, coordOf in Ea.
        assert (coord_eqb (x r, y r) (x r, y r) = true) by (apply coord_eqb_eq; reflexivity).
        congruence.
      * destruct (extract (isAt (coordOf r)) l) as [[b l']|]; [discriminate|].
        apply IH; [exact Hr|reflexivity].
  - intros Hc. specialize (inv_closed0 Hc).
    destruct (started s), (fetched s), (sent s); cbn [List.length] in *;
      try lia; repeat split.
Qed.

Lemma goroutines_safe_witness :
  (* two goroutines launched, the first has sent, nothing received yet *)
  let sched := [Launch; Launch; Download (0, 0); Send (0, 0); Download (0, 1)] in
  match run sampleTile resolution sched (initAsm resolution) with
  | Some s => wg s = 2 /\ exists s', step sampleTile resolution (Send (0, 1)) s = Some s'
  | None => False
  end.
Proof.
  intros sched.
  destruct (run sampleTile resolution sched (initAsm resolution)) as [s|] eqn:E.
  - destruct (goroutines_safe sampleTile resolution sched s E) as (Hwg & _ & _ & Hsend & _).
    assert (Hs : started s = [] /\ sent s = [(0, 0)]
                 /\ fetched s = [tileOf sampleTile (0, 1)]).
    { vm_compute in E. injection E as <-. repeat split. }
    destruct Hs as (H1 & H2 & H3). rewrite H1, H2, H3 in Hwg. split; [exact Hwg|].
    apply (Hsend (tileOf sampleTile (0, 1))). rewrite H3. left. reflexivity.
  - vm_compute in E. discriminate.
Defined.

(** ** Tile URLs *)

Lemma uint_chars (u : Decimal.uint) :
  allChars isNumChar (NilEmpty.string_of_uint u) = true.
Proof. induction u; cbn; try reflexivity; exact IHu. Qed.

Lemma fmt_d_chars (n : Z) : allChars isNumChar (fmt.d n) = true.
Proof.
  unfold fmt.d, NilZero.string_of_int, NilZero.string_of_uint.
  destruct (Z.to_int n) as [u|u]; destruct u; try reflexivity;
    cbn [allChars]; try apply (uint_chars (_ u)); cbn; apply uint_chars.
Qed.

Lemma fmt_d_inj (n m : Z) : fmt.d n = fmt.d m -> n = m.
Proof.
  unfold fmt.d. intros H.
  assert (Hnn : forall z, Z.to_int z <> Decimal.Pos Decimal.Nil
                          /\ Z.to_int z <> Decimal.Neg Decimal.Nil).
  { intros [|p|p]; cbn; split; try discriminate; intros E; injection E as E;
      exact (DecimalPos.Unsigned.to_uint_nonnil p E). }
  apply DecimalZ.to_int_inj.
  assert (E : Some (Z.to_int n) = Some (Z.to_int m)).
  { rewrite <- (NilZero.isi (Z.to_int n)), <- (NilZero.isi (Z.to_int m)); try apply Hnn.
    rewrite H. reflexivity. }
  injection E as E. exact E.
Qed.

Lemma append_inv_head (s a b : string) : (s ++ a = s ++ b)%string -> a = b.
Proof.
  induction s as [|c s IH]; cbn; intros H; [exact H|].
  injection H as H. apply IH. exact H.
Qed.

Lemma split_at (p : ascii -> bool) (c : ascii) (u u' v v' : string) :
  p c = false ->
  allChars p u = true -> allChars p u' = true ->
  (u ++ String c v = u' ++ String c v')%string ->
  u = u' /\ v = v'.
Proof.
  intros Hc. revert u'. induction u as [|a u IH]; intros [|a' u'] Hu Hu' H; cbn in *.
  - injection H as H. split; [reflexivity|exact H].
  - injection H as Ha _. subst a'. apply andb_true_iff in Hu'. destruct Hu'. congruence.
  - injection H as Ha _. subst a. apply andb_true_iff in Hu. destruct Hu. congruence.
  - injection H as Ha H. subst a'.
    apply andb_true_iff in Hu, Hu'. destruct Hu, Hu'.
    destruct (IH u') as [-> ->]; try assumption. split; reflexivity.
Qed.

Lemma tileURL_inj (res i j i' j' : Z) (t : time.Time) :
  tileURL res i j t = tileURL res i' j' t -> i = i' /\ j = j'.
Proof.
  unfold tileURL. destruct (urlFields t) as [[[[[year month] day] hour] minute] second].
  intros H.
  repeat (apply append_inv_head in H).
  change ("_" ++ fmt.d j ++ ".png")%string with (String "_" (fmt.d j ++ String "." "png")) in H.
  change ("_" ++ fmt.d j' ++ ".png")%string with (String "_" (fmt.d j' ++ String "." "png")) in H.
  apply (split_at isNumChar) in H; try apply fmt_d_chars; [|reflexivity].
  destruct H as [Hi Hj].
  apply (split_at isNumChar) in Hj; try apply fmt_d_chars; [|reflexivity].
  destruct Hj as [Hj _].
  split; apply fmt_d_inj; assumption.
Qed.

(** X8 — for one resolution and one timestamp, two tile URLs are equal
    only if the coordinates are: the 16 requests of a cycle go to 16
    different URLs. *)
Theorem tileURL_distinct (t : time.Time) :
  (forall res i j i' j',
      tileURL res i j t = tileURL res i' j' t <-> (i, j) = (i', j')) /\
  NoDup (map (fun c => tileURL resolution (fst c) (snd c) t) (gridCoords resolution)).
Proof.
  split.
  - intros res i j i' j'. split.
    + intros H. apply tileURL_inj in H. destruct H as [-> ->]. reflexivity.
    + intros H. injection H as -> ->. reflexivity.
  - generalize (NoDup_gridCoords resolution).
    induction 1 as [|c l Hc Hl IH]; cbn [map]; constructor; [|exact IH].
    rewrite in_map_iff. intros (c' & Heq & Hin).
    apply tileURL_inj in Heq. destruct Heq as [H1 H2].
    destruct c, c'. cbn in H1, H2. subst. contradiction.
Qed.

(** ** The desktop back ends *)

Lemma gated_intro (answer : list (list string) -> list string -> option error)
      (history : list (list string)) (c1 c2 : list string) :
  gated answer history c1 c2
        (match answer history c1 with
         | Some e => (Some e, history ++ [c1])
         | None => (answer (history ++ [c1]) c2, (history ++ [c1]) ++ [c2])
         end).
Proof.
  unfold gated. destruct (answer history c1) as [e|] eqn:E.
  - split; [intros e' He'; congruence|]. split; [discriminate|]. cbn. discriminate.
  - rewrite <- app_assoc. cbn [app].
    split; [discriminate|]. split; [reflexivity|]. cbn. intros H. repeat split; assumption.
Qed.

(** X9 — each of the back ends [SetCinnamon], [SetDeepin] and [SetMate]
    writes the fill mode first and the picture second, and the picture
    only if the fill mode could be written: when the first [dconf] fails
    its error is returned and nothing else is run; a nil result means that
    both commands ran and succeeded. Cinnamon and Deepin are given the
    quoted URI "file://" + file, MATE the quoted file name. A failure of
    the second command leaves the fill mode written. *)
Theorem backends_mode_then_picture (FillStyle : Type) (getGNOMEString : FillStyle -> string)
        (Quote : string -> string)
        (answer : list (list string) -> list string -> option error)
        (file : string) (mode : FillStyle) (history : list (list string)) :
  gated answer history
        ["dconf"; "write"; "/org/cinnamon/desktop/background/picture-options";
         Quote (getGNOMEString mode)]%string
        ["dconf"; "write"; "/org/cinnamon/desktop/background/picture-uri";
         Quote ("file://" ++ file)]%string
        (SetCinnamon FillStyle getGNOMEString Quote answer file mode history) /\
  gated answer history
        ["dconf"; "write"; "/com/deepin/wrap/gnome/desktop/background/picture-options";
         Quote (getGNOMEString mode)]%string
        ["dconf"; "write"; "/com/deepin/wrap/gnome/desktop/background/picture-uri";
         Quote ("file://" ++ file)]%string
        (SetDeepin FillStyle getGNOMEString Quote answer file mode history) /\
  gated answer history
        ["dconf"; "write"; "/org/mate/desktop/background/picture-options";
         Quote (getGNOMEString mode)]%string
        ["dconf"; "write"; "/org/mate/desktop/background/picture-filename";
         Quote file]%string
        (SetMate FillStyle getGNOMEString Quote answer file mode history).
Proof.
  split; [|split].
  - unfold SetCinnamon, exec_Run.
    match goal with |- gated _ _ ?c1 ?c2 _ =>
      pose proof (gated_intro answer history c1 c2) as H;
      destruct (answer history c1); exact H end.
  - unfold SetDeepin, exec_Run.
    match goal with |- gated _ _ ?c1 ?c2 _ =>
      pose proof (gated_intro answer history c1 c2) as H;
      destruct (answer history c1); exact H end.
  - unfold SetMate, exec_Run.
    match goal with |- gated _ _ ?c1 ?c2 _ =>
      pose proof (gated_intro answer history c1 c2) as H;
      destruct (answer history c1); exact H end.
Qed.

(** ** The earlier variant *)

(** X10 — the earlier [downloadImage] and the later one: where the
    earlier panics (request, body or PNG failure) the later returns the
    blank tile; where the earlier returns an image, the later returns the
    same image if the status of the response is 200, and the blank tile
    if it is not, a check the earlier does not make. *)
Theorem downloadImage_variants (w : World) (res i j : Z) (t : time.Time) :
  (forall e, V1.downloadImage w res i j t = inr e ->
             downloadImage w res i j t = blankTile) /\
  (forall img resp,
      V1.downloadImage w res i j t = inl img ->
      http_Get w (tileURL res i j t) = inl resp ->
      downloadImage w res i j t = if StatusCode resp =? 200 then img else blankTile).
Proof.
  unfold V1.downloadImage, downloadImage. cbv zeta.
  destruct (http_Get w (tileURL res i j t)) as [resp|e0].
  - destruct (Body resp) as [buf|e1].
    + destruct (png_Decode w buf) as [img0|e2].
      * split; [discriminate|]. intros img resp' H1 H2.
        injection H1 as <-. injection H2 as <-.
        destruct (StatusCode resp =? 200); reflexivity.
      * split; [|discriminate]. intros _ _. destruct (negb _); reflexivity.
    + split; [|discriminate]. intros _ _. destruct (negb _); reflexivity.
  - split; [reflexivity|discriminate].
Qed.

Lemma Rect_Dx (x0 y0 x1 y1 : Z) : image.Dx (image.Rect x0 y0 x1 y1) = Z.abs (x1 - x0).
Proof.
  unfold image.Rect, image.Dx.
  destruct (Z.ltb_spec x1 x0); rewrite Z.gtb_ltb;
    destruct (Z.ltb_spec x1 x0); try lia;
    destruct (y0 >? y1); cbn; lia.
Qed.

Lemma Rect_Dy (x0 y0 x1 y1 : Z) : image.Dy (image.Rect x0 y0 x1 y1) = Z.abs (y1 - y0).
Proof.
  unfold image.Rect, image.Dy.
  destruct (x0 >? x1); rewrite Z.gtb_ltb;
    destruct (Z.ltb_spec y1 y0); cbn; lia.
Qed.

(** X11 — the inset rectangle of the earlier [processWallpaper]: the
    fallback to the whole image is taken only at the two exact sizes where
    the inset rectangle has no width or no height (2*border = w + 50 or
    2*border = h - 50); for every other border, larger ones included,
    [image.Rect] puts the corners in order and the rectangle used is
    |w - 2*border + 50| wide and |h - 2*border - 50| high. So a square
    canvas with a border that fits is scaled into a rectangle 100 pixels
    wider than high: 1650 by 1550 at (300, 300) for the program's 2200 and
    300. *)
Theorem dstRect_inset (border w h : Z) :
  (2 * border = w + 50 \/ 2 * border = h - 50 ->
   V1.dstRect border w h = image.Rect 0 0 w h) /\
  (2 * border <> w + 50 -> 2 * border <> h - 50 ->
   V1.dstRect border w h = image.Rect border border (w - border + 50) (h - border - 50) /\
   image.Dx (V1.dstRect border w h) = Z.abs (w - 2 * border + 50) /\
   image.Dy (V1.dstRect border w h) = Z.abs (h - 2 * border - 50)) /\
  (w = h -> 0 <= 2 * border < h - 50 ->
   image.Dx (V1.dstRect border w h) - image.Dy (V1.dstRect border w h) = 100) /\
  V1.dstRect V1.borderThickness (resolution * tileSize) (resolution * tileSize)
  = image.mkRectangle (image.Pt 300 300) (image.Pt 1950 1850).
Proof.
  assert (Hgen : 2 * border <> w + 50 -> 2 * border <> h - 50 ->
                 V1.dstRect border w h
                 = image.Rect border border (w - border + 50) (h - border - 50)).
  { intros H1 H2. unfold V1.dstRect. cbv zeta. rewrite Rect_Dx, Rect_Dy.
    destruct (Z.leb_spec (Z.abs (w - border + 50 - border)) 0); [lia|].
    destruct (Z.leb_spec (Z.abs (h - border - 50 - border)) 0); [lia|].
    reflexivity. }
  split; [|split; [|split]].
  - intros H. unfold V1.dstRect. cbv zeta. rewrite Rect_Dx, Rect_Dy.
    destruct (Z.leb_spec (Z.abs (w - border + 50 - border)) 0); [reflexivity|].
    destruct (Z.leb_spec (Z.abs (h - border - 50 - border)) 0); [reflexivity|].
    lia.
  - intros H1 H2. rewrite (Hgen H1 H2), Rect_Dx, Rect_Dy.
    split; [reflexivity|]. split; f_equal; lia.
  - intros -> Hb. rewrite Hgen by lia. rewrite Rect_Dx, Rect_Dy. lia.
  - reflexivity.
Qed.

Lemma dstRect_inset_witness :
  (* a border far too large for the image: no fallback, a mirrored
     rectangle larger than the image *)
  V1.dstRect 3000 2200 2200
  = image.mkRectangle (image.Pt (-750) (-850)) (image.Pt 3000 3000) /\
  image.Dx (V1.dstRect 3000 2200 2200) = 3750.
Proof.
  destruct (dstRect_inset 3000 2200 2200) as (_ & H & _).
  destruct H as (H1 & H2 & _); try lia.
  split; [rewrite H1; reflexivity|rewrite H2; reflexivity].
Defined.

(** ** Starting and stopping *)

Lemma ticks_snoc (ws : list World) (w : World) (g : Globals) :
  globalsOf (ticks (ws ++ [w]) g) = globalsOf (doFetch w (globalsOf (ticks ws g))) /\
  traceOf (ticks (ws ++ [w]) g)
  = traceOf (ticks ws g) ++ traceOf (doFetch w (globalsOf (ticks ws g))).
Proof.
  revert g. induction ws as [|w0 ws IH]; intros g.
  - cbn [app]. rewrite ticks_cons. cbn [ticks]. unfold ret.
    rewrite !globalsOf_triple, !traceOf_triple, app_nil_r. split; reflexivity.
  - cbn [app]. rewrite !ticks_cons, !globalsOf_triple, !traceOf_triple.
    destruct (IH (globalsOf (doFetch w0 g))) as [H1 H2].
    rewrite H1, H2, app_assoc. split; reflexivity.
Qed.

Lemma appRun_snoc (sched : list AppAction) (a : AppAction) (s : App) :
  appRun (sched ++ [a]) s =
  match appRun sched s with
  | Some s' => appStep a s'
  | None => None
  end.
Proof.
  revert s. induction sched as [|b sched IH]; intros s; cbn.
  - destruct (appStep a s); reflexivity.
  - destruct (appStep b s); [apply IH|reflexivity].
Qed.

Lemma setNth_single {A : Type} (k : nat) (a : A) (l fs : list A) :
  List.length l = 1%nat -> setNth k a l = Some fs -> fs = [a].
Proof.
  destruct l as [|b [|c l]]; cbn; try discriminate. intros _.
  destruct k as [|[|k]]; cbn; try discriminate. intros H. injection H as <-. reflexivity.
Qed.

Lemma AppInv_step (sched : list AppAction) (s s' : App) (a : AppAction) :
  AppInv sched s -> appStep a s = Some s' -> AppInv (sched ++ [a]) s'.
Proof.
  intros I Hs. destruct I.
  assert (Hfw : fetchWorlds (sched ++ [a])
                = fetchWorlds sched ++ match a with Fetch _ w => [w] | _ => [] end).
  { unfold fetchWorlds. rewrite flat_map_app. cbn. rewrite app_nil_r. reflexivity. }
  destruct a as [|k w|]; cbn in Hs.
  - (* Click *)
    rewrite app_nil_r in Hfw.
    destruct (handler s) eqn:Eh; [|discriminate].
    destruct (isRunning s) eqn:Er; injection Hs as <-;
      constructor; cbn [isRunning fetchers handler appGlobals statusTitle dateTitle appTrace];
      rewrite ?Hfw; try assumption; try discriminate.
    + intros _ _. apply app_running0. reflexivity.
    + intros _. destruct (app_stopped0 eq_refl eq_refl) as (-> & _ & _). repeat split.
  - (* Fetch *)
    destruct (setNth k Selecting (fetchers s)) as [fs|] eqn:En; [|discriminate].
    injection Hs as <-.
    assert (Hone : List.length (fetchers s) = 1%nat).
    { destruct (isRunning s) eqn:Er.
      - apply app_running0. reflexivity.
      - destruct (handler s) eqn:Eh.
        + destruct (app_stopped0 eq_refl eq_refl) as (Hf & _). rewrite Hf in En.
          destruct k; discriminate.
        + apply app_stopping0; reflexivity. }
    pose proof (setNth_single _ _ _ _ Hone En) as ->.
    destruct (ticks_snoc (fetchWorlds sched) w initGlobals) as [HG HT].
    constructor; cbn [isRunning fetchers handler appGlobals statusTitle dateTitle appTrace];
      rewrite ?Hfw.
    + intros Hr. destruct (app_running0 Hr) as (H1 & _ & H3). repeat split; assumption.
    + intros _ _. reflexivity.
    + intros Hr Hh. destruct (app_stopped0 Hr Hh) as (Hf & _). rewrite Hf in Hone.
      discriminate.
    + rewrite HG, app_globals0. reflexivity.
    + rewrite HT, app_trace0, app_globals0. reflexivity.
  - (* Rendezvous *)
    rewrite app_nil_r in Hfw.
    destruct (handler s) eqn:Eh; [discriminate|].
    destruct (fetchers s) as [|[|] rest] eqn:Ef; try discriminate.
    injection Hs as <-.
    assert (Er : isRunning s = false).
    { destruct (isRunning s) eqn:Er; [|reflexivity].
      destruct (app_running0 eq_refl) as [H _]. discriminate. }
    pose proof (app_stopping0 Er eq_refl) as Hone. cbn in Hone.
    assert (rest = []) by (destruct rest; [reflexivity|discriminate]). subst rest.
    constructor; cbn [isRunning fetchers handler appGlobals statusTitle dateTitle appTrace];
      rewrite ?Hfw; try assumption.
    + intros Hr. congruence.
    + discriminate.
    + intros _ _. repeat split.
Qed.

Lemma AppInv_run (sched : list AppAction) (s : App) :
  appRun sched initApp = Some s -> AppInv sched s.
Proof.
  revert s. induction sched as [|a sched IH] using rev_ind; intros s H.
  - cbn in H. injection H as <-.
    constructor; cbn; try discriminate; try reflexivity. intros _. repeat split.
  - rewrite appRun_snoc in H.
    destruct (appRun sched initApp) as [s0|] eqn:E; [|discriminate].
    eapply AppInv_step; [apply IH; reflexivity|exact H].
Qed.

(** X12 — starting and stopping, under any interleaving of clicks, ticks
    and fetches: there is never more than one goroutine running
    [startFetcher]; while the status is "Running" there is exactly one;
    once a stop has been served there is none, no [doFetch] can happen,
    and the menu shows "Latest Image: Stopped" and "Date: --"; a stop that
    is waiting can be served at once, or as soon as the fetcher has made
    the immediate [doFetch] it had not yet made; and the package-level
    variables are never reset: they are what the [doFetch]es made so far,
    before and after any stop, leave one after the other. *)
Theorem start_stop (sched : list AppAction) (s : App) :
  appRun sched initApp = Some s ->
  (List.length (fetchers s) <= 1)%nat /\
  (isRunning s = true ->
   List.length (fetchers s) = 1%nat /\ statusTitle s = "Latest Image: Running"%string) /\
  (isRunning s = false -> handler s = Idle ->
   fetchers s = [] /\ (forall k w, appStep (Fetch k w) s = None) /\
   statusTitle s = "Latest Image: Stopped"%string /\ dateTitle s = "Date: --"%string) /\
  (handler s = Stopping ->
   (exists s', appStep Rendezvous s = Some s') \/
   (forall w, exists s1 s2,
        appStep (Fetch 0 w) s = Some s1 /\ appStep Rendezvous s1 = Some s2)) /\
  appGlobals s = globalsOf (ticks (fetchWorlds sched) initGlobals) /\
  appTrace s = traceOf (ticks (fetchWorlds sched) initGlobals).
Proof.
  intros Hrun. destruct (AppInv_run sched s Hrun).
  assert (Hlen : (List.length (fetchers s) <= 1)%nat).
  { destruct (isRunning s) eqn:Er.
    - destruct (app_running0 eq_refl) as (_ & -> & _). lia.
    - destruct (handler s) eqn:Eh.
      + destruct (app_stopped0 eq_refl eq_refl) as (-> & _). cbn. lia.
      + rewrite (app_stopping0 eq_refl eq_refl). lia. }
  split; [exact Hlen|]. split; [|split; [|split; [|split; assumption]]].
  - intros Hr. destruct (app_running0 Hr) as (_ & H1 & H2). split; assumption.
  - intros Hr Hh. destruct (app_stopped0 Hr Hh) as (Hf & H1 & H2).
    repeat split; try assumption.
    intros k w. cbn. rewrite Hf. destruct k; reflexivity.
  - intros Hh.
    assert (Er : isRunning s = false).
    { destruct (isRunning s) eqn:Er; [|reflexivity].
      destruct (app_running0 eq_refl) as [H _]. congruence. }
    pose proof (app_stopping0 Er Hh) as Hone.
    destruct (fetchers s) as [|[|] [|f rest]] eqn:Ef; try discriminate.
    + right. intros w. cbn. rewrite Ef. cbn. do 2 eexists. split; [reflexivity|].
      cbn. rewrite Hh. reflexivity.
    + left. cbn. rewrite Hh, Ef. eauto.
Qed.

Lemma start_stop_witness :
  (* the first date is fetched and applied, the user stops, then starts
     again: the immediate fetch finds the same date and does not claim it *)
  let w := serving "2026-01-11 16:10:00" false false in
  let sched := [Fetch 0 w; Click; Rendezvous; Click; Fetch 0 w] in
  match appRun sched initApp with
  | Some s =>
      appGlobals s = globalsOf (ticks [w; w] initGlobals) /\
      List.length (fetchers s) = 1%nat /\ isRunning s = true
  | None => False
  end.
Proof.
  intros w sched.
  destruct (appRun sched initApp) as [s|] eqn:E.
  - destruct (start_stop sched s E) as (_ & Hr & _ & _ & HG & _).
    assert (Hrun : isRunning s = true).
    { clear - E. unfold sched in E. cbn [appRun appStep] in E.
      cbn [handler isRunning fetchers setNth initApp] in E.
      injection E as <-. reflexivity. }
    split; [exact HG|]. split; [apply Hr; exact Hrun|exact Hrun].
  - exfalso. clear - E. unfold sched in E. cbn [appRun appStep] in E.
    cbn [handler isRunning fetchers setNth initApp] in E. discriminate.
Defined.

(** ** The loops over the grid *)

(** X13 — the two nested loops of [processWallpaper] reach every
    coordinate (i, j) with i and j in [0, gridSize) exactly once, hence
    [gridSize*gridSize] coordinates in all, and none at all when
    [gridSize] is zero or negative. *)
Theorem gridCoords_exact (gridSize : Z) :
  NoDup (gridCoords gridSize) /\
  (forall i j, List.In (i, j) (gridCoords gridSize) <-> 0 <= i < gridSize /\ 0 <= j < gridSize) /\
  Z.of_nat (List.length (gridCoords gridSize)) = Z.max 0 gridSize * Z.max 0 gridSize /\
  (gridSize <= 0 -> gridCoords gridSize = []).
Proof.
  split; [apply NoDup_gridCoords|]. split; [intros i j; apply In_gridCoords|]. split.
  - rewrite length_gridCoords. lia.
  - intros H. unfold gridCoords, upto.
    replace (Z.to_nat gridSize) with 0%nat by lia. reflexivity.
Qed.

(** ** The desktop's answer *)

(** X14 — what [wallpaper.SetWallpaper] answers changes nothing: a tick
    leaves the same stored values and performs the same actions whether
    the desktop accepted the picture or returned an error. *)
Theorem sink_error_swallowed (w : World) (g : Globals) (sink : string -> option error) :
  doFetch (mkWorld (http_Get w) (json_Decode w) (png_Decode w) (os_TempDir w)
                   (os_Create w) (png_Encode w) sink) g
  = doFetch w g.
Proof.
  set (w' := mkWorld (http_Get w) (json_Decode w) (png_Decode w) (os_TempDir w)
                     (os_Create w) (png_Encode w) sink).
  assert (HL : latestImage w' = latestImage w) by reflexivity.
  assert (HT : forall t, pipelineTrace w' t = pipelineTrace w t).
  { intros t. unfold pipelineTrace, outputPath, finalImage, downloadImage, w'.
    cbn [http_Get png_Decode os_TempDir os_Create]. reflexivity. }
  rewrite !doFetch_shape, HL.
  destruct (latestImage w) as [raw|e]; [|reflexivity].
  destruct (time.Parse raw) as [parsed|]; [|reflexivity].
  rewrite HT. reflexivity.
Qed.
